(** * Field Stock API: a shallow embedding of [main.py] and [schemas.py]

    The FastAPI handlers are embedded as computations in a small
    state-and-exception monad over a document store.  Python dictionaries
    (MongoDB documents, response bodies, token claims) are finite maps with
    string keys; collections are lists of documents in insertion order.

    The libraries the handlers call (pymongo, python-jose, bson, passlib,
    requests, BeautifulSoup) are not part of the repository.  They are
    modelled at the level the handlers observe: the store holds Python
    values as they are (wire encoding is not modelled), a token is its
    decoded structure, and the cryptographic primitives are parameters. *)

From Stdlib Require Import ZArith NArith String Ascii List Lia.
From stdpp Require Import gmap strings list fin_maps.

Local Open Scope string_scope.
Local Open Scope Z_scope.
Local Open Scope list_scope.

(** ** Python values *)

Inductive hexdigit :=
| X0 | X1 | X2 | X3 | X4 | X5 | X6 | X7
| X8 | X9 | Xa | Xb | Xc | Xd | Xe | Xf.

#[global] Instance hexdigit_eq_dec : EqDecision hexdigit.
Proof. solve_decision. Defined.

(** A [bson.ObjectId] is 12 bytes, that is 24 hexadecimal digits. *)
Definition oid := list hexdigit.

Definition wf_oid (o : oid) : Prop := length o = 24%nat.

Inductive value :=
| VNone
| VStr (s : string)
| VInt (z : Z)
| VBool (b : bool)
| VOid (o : oid)
| VDate (t : Z).   (* an aware UTC datetime, in microseconds since the epoch *)

#[global] Instance value_eq_dec : EqDecision value.
Proof. solve_decision. Defined.

Abbreviation doc := (gmap string value).

(** ** [str(...)] on the values the handlers convert *)

Definition hexchar (h : hexdigit) : ascii :=
  match h with
  | X0 => "0" | X1 => "1" | X2 => "2" | X3 => "3"
  | X4 => "4" | X5 => "5" | X6 => "6" | X7 => "7"
  | X8 => "8" | X9 => "9" | Xa => "a" | Xb => "b"
  | Xc => "c" | Xd => "d" | Xe => "e" | Xf => "f"
  end%char.

(** [bytes.fromhex] accepts both letter cases. *)
Definition hexval (c : ascii) : option hexdigit :=
  match c with
  | "0" => Some X0 | "1" => Some X1 | "2" => Some X2 | "3" => Some X3
  | "4" => Some X4 | "5" => Some X5 | "6" => Some X6 | "7" => Some X7
  | "8" => Some X8 | "9" => Some X9
  | "a" | "A" => Some Xa | "b" | "B" => Some Xb | "c" | "C" => Some Xc
  | "d" | "D" => Some Xd | "e" | "E" => Some Xe | "f" | "F" => Some Xf
  | _ => None
  end%char.

Fixpoint str_oid (o : oid) : string :=
  match o with
  | [] => ""
  | h :: o' => String (hexchar h) (str_oid o')
  end.

Fixpoint parse_hex (s : string) : option oid :=
  match s with
  | "" => Some []
  | String c s' =>
      match hexval c, parse_hex s' with
      | Some h, Some o => Some (h :: o)
      | _, _ => None
      end
  end.

(** [ObjectId(s)] for a string [s]: 24 hexadecimal digits, else
    [bson.errors.InvalidId]. *)
Definition ObjectId_of_str (s : string) : option oid :=
  if Nat.eqb (String.length s) 24 then parse_hex s else None.

(** Decimal printing, zero padded to [width] digits. *)
Fixpoint digits_rev (fuel : nat) (n : N) : list ascii :=
  match fuel with
  | O => []
  | S fuel' =>
      ascii_of_N (48 + n mod 10) ::
      (if (n / 10 =? 0)%N then [] else digits_rev fuel' (n / 10)%N)
  end.

Definition str_N (n : N) : string :=
  string_of_list_ascii (rev (digits_rev (S (N.to_nat (N.log2 n))) n)).

Definition str_int (z : Z) : string :=
  if z <? 0 then String "-" (str_N (Z.to_N (- z))) else str_N (Z.to_N z).

Definition zfill (width : nat) (s : string) : string :=
  string_of_list_ascii (repeat "0"%char (width - String.length s)) +:+ s.

(** The proleptic Gregorian date of a day count since 1970-01-01. *)
Definition civil_from_days (days : Z) : Z * Z * Z :=
  let z := days + 719468 in
  let era := z / 146097 in
  let doe := z - era * 146097 in
  let yoe := (doe - doe / 1460 + doe / 36524 - doe / 146096) / 365 in
  let y := yoe + era * 400 in
  let doy := doe - (365 * yoe + yoe / 4 - yoe / 100) in
  let mp := (5 * doy + 2) / 153 in
  let d := doy - (153 * mp + 2) / 5 + 1 in
  let m := if mp <? 10 then mp + 3 else mp - 9 in
  (if m <=? 2 then y + 1 else y, m, d).

(** [datetime.isoformat(sep)] of an aware UTC datetime (years 1 to 9999):
    the microseconds are printed only when they are not zero. *)
Definition isoformat_sep (sep : string) (t : Z) : string :=
  let us := t mod 1000000 in
  let secs := t / 1000000 in
  let sod := secs mod 86400 in
  let '(y, m, d) := civil_from_days (secs / 86400) in
  let p w x := zfill w (str_int x) in
  p 4%nat y +:+ "-" +:+ p 2%nat m +:+ "-" +:+ p 2%nat d +:+ sep +:+
  p 2%nat (sod / 3600) +:+ ":" +:+ p 2%nat (sod mod 3600 / 60) +:+ ":" +:+
  p 2%nat (sod mod 60) +:+
  (if us =? 0 then "" else "." +:+ p 6%nat us) +:+ "+00:00".

Definition isoformat (t : Z) : string := isoformat_sep "T" t.

Definition py_str (v : value) : string :=
  match v with
  | VNone => "None"
  | VStr s => s
  | VInt z => str_int z
  | VBool true => "True"
  | VBool false => "False"
  | VOid o => str_oid o
  | VDate t => isoformat_sep " " t
  end.

(** ** The document store

    The four collections the handlers address by name.  A collection keeps
    its documents in insertion order; [find_one] and [update_one] act on the
    first document that matches the filter. *)

Inductive collection := user | inventoryitem | technicianstock | workorder.

Inductive event :=
| Read (c : collection)
| Write (c : collection).

Record store := {
  users : list doc;
  inventoryitems : list doc;
  technicianstocks : list doc;
  workorders : list doc;
  next_id : N;            (* the ObjectId generator of the driver *)
  oplog : list event      (* the store operations issued so far, latest first *)
}.

Definition db (c : collection) (st : store) : list doc :=
  match c with
  | user => users st
  | inventoryitem => inventoryitems st
  | technicianstock => technicianstocks st
  | workorder => workorders st
  end.

Definition set_db (c : collection) (l : list doc) (st : store) : store :=
  match c with
  | user =>
      {| users := l; inventoryitems := inventoryitems st;
         technicianstocks := technicianstocks st; workorders := workorders st;
         next_id := next_id st; oplog := oplog st |}
  | inventoryitem =>
      {| users := users st; inventoryitems := l;
         technicianstocks := technicianstocks st; workorders := workorders st;
         next_id := next_id st; oplog := oplog st |}
  | technicianstock =>
      {| users := users st; inventoryitems := inventoryitems st;
         technicianstocks := l; workorders := workorders st;
         next_id := next_id st; oplog := oplog st |}
  | workorder =>
      {| users := users st; inventoryitems := inventoryitems st;
         technicianstocks := technicianstocks st; workorders := l;
         next_id := next_id st; oplog := oplog st |}
  end.

Definition log (e : event) (st : store) : store :=
  {| users := users st; inventoryitems := inventoryitems st;
     technicianstocks := technicianstocks st; workorders := workorders st;
     next_id := next_id st; oplog := e :: oplog st |}.

Definition bump_id (st : store) : store :=
  {| users := users st; inventoryitems := inventoryitems st;
     technicianstocks := technicianstocks st; workorders := workorders st;
     next_id := N.succ (next_id st); oplog := oplog st |}.

Definition empty_store : store :=
  {| users := []; inventoryitems := []; technicianstocks := [];
     workorders := []; next_id := 0; oplog := [] |}.

(** Generated ids: the 24 digits of the counter, most significant first. *)
Definition hexdigit_of_N (n : N) : hexdigit :=
  match n with
  | 0 => X0 | 1 => X1 | 2 => X2 | 3 => X3 | 4 => X4 | 5 => X5 | 6 => X6
  | 7 => X7 | 8 => X8 | 9 => X9 | 10 => Xa | 11 => Xb | 12 => Xc
  | 13 => Xd | 14 => Xe | _ => Xf
  end%N.

Fixpoint oid_digits (k : nat) (n : N) : oid :=
  match k with
  | O => []
  | S k' => hexdigit_of_N (n mod 16) :: oid_digits k' (n / 16)
  end.

Definition oid_of_N (n : N) : oid := rev (oid_digits 24 n).

(** A query filter is a document of required field values. *)
Definition matches (flt d : doc) : bool :=
  bool_decide (map_Forall (fun k v => d !! k = Some v) flt).

(** The effect of [{"$set": fields}] on one document. *)
Definition apply_set (fields d : doc) : doc := fields ∪ d.

Fixpoint update_first (flt fields : doc) (l : list doc) : option (list doc) :=
  match l with
  | [] => None
  | d :: l' =>
      if matches flt d then Some (apply_set fields d :: l')
      else cons d <$> update_first flt fields l'
  end.

(** ** Handlers as computations: state and exceptions *)

Inductive exn :=
| HTTPException (status_code : Z) (detail : string)
| Error (name : string).     (* any other Python exception *)

Inductive outcome (A : Type) :=
| Return (a : A)
| Raise (e : exn).
Arguments Return {A} a.
Arguments Raise {A} e.

Definition M (A : Type) : Type := store -> outcome A * store.

#[global] Instance M_ret : MRet M := fun A a st => (Return a, st).
#[global] Instance M_bind : MBind M := fun A B f m st =>
  match m st with
  | (Return a, st') => f a st'
  | (Raise e, st') => (Raise e, st')
  end.

Definition raise {A} (e : exn) : M A := fun st => (Raise e, st).

(** [try: body except Exception: handler] *)
Definition try_except {A} (body : M A) (handler : exn -> M A) : M A :=
  fun st =>
    match body st with
    | (Return a, st') => (Return a, st')
    | (Raise e, st') => handler e st'
    end.

(** What FastAPI answers: 200 on return, the status of an [HTTPException],
    500 for an exception no handler caught. *)
Definition status {A} (o : outcome A) : Z :=
  match o with
  | Return _ => 200
  | Raise (HTTPException code _) => code
  | Raise (Error _) => 500
  end.

(** *** Collection operations (pymongo) *)

Definition find_one (c : collection) (flt : doc) : M (option doc) :=
  fun st => (Return (List.find (matches flt) (db c st)), log (Read c) st).

Definition find_all (c : collection) (flt : doc) : M (list doc) :=
  fun st => (Return (List.filter (matches flt) (db c st)), log (Read c) st).

(** [update_one(flt, {"$set": fields}, upsert=True)]: the first match is
    updated in place; with no match a document made of the filter's fields,
    the set fields and a generated [_id] is appended. *)
Definition update_one_upsert (c : collection) (flt fields : doc) : M unit :=
  fun st =>
    match update_first flt fields (db c st) with
    | Some l => (Return tt, log (Write c) (set_db c l st))
    | None =>
        let d := <["_id" := VOid (oid_of_N (next_id st))]> (apply_set fields flt) in
        (Return tt, log (Write c) (bump_id (set_db c (db c st ++ [d]) st)))
    end.

(** Modelled from the spec: [database.create_document] is not among the
    sources.  The Document Store Adapter "exposes collection-scoped
    find/insert/update-upsert operations"; [register] passes it the user
    fields and reads the returned value as the textual id of the new
    document. *)
Definition create_document (c : collection) (data : doc) : M string :=
  fun st =>
    let o := oid_of_N (next_id st) in
    (Return (str_oid o),
     log (Write c) (bump_id (set_db c (db c st ++ [<["_id" := VOid o]> data]) st))).

(** ** schemas.py and the request and response models of main.py *)

Inductive Role := technician | office.

Definition str_role (r : Role) : string :=
  match r with technician => "technician" | office => "office" end.

Module User.
Record t := {
  name : string;
  email : string;
  role : Role;                (* default "technician" *)
  password_hash : string;
  phone : option string;      (* default None *)
  is_active : bool            (* default True *)
}.

Definition model_dump (u : t) : doc :=
  {[ "name" := VStr (name u);
     "email" := VStr (email u);
     "role" := VStr (str_role (role u));
     "password_hash" := VStr (password_hash u);
     "phone" := from_option VStr VNone (phone u);
     "is_active" := VBool (is_active u) ]}.
End User.

Module UserPublic.
Record t := { id : string; name : string; email : string; role : string }.
End UserPublic.

Module SupplierScrapeParams.
Record t := { url : string; max_items : Z (* default 200 *) }.
End SupplierScrapeParams.

Module StockUpdate.
Record t := { sku : string; quantity : Z }.
End StockUpdate.

Module RouteCompletion.
Record t := {
  order_id : string;
  technician_email : option string;
  status : string;
  completed_at : option string
}.
End RouteCompletion.

(** A bearer token as [jose.jwt] sees it after splitting and decoding the
    compact form: either the text is no signed token at all, or it carries
    an algorithm header, a payload (a JSON object, or something else) and a
    signature. *)
Inductive token :=
| Unparsable (raw : string)
| Jws (alg : string) (payload : option doc) (signature : string).

Module Token.
Record t := { access_token : token; token_type : string (* "bearer" *) }.
End Token.

(** The answer of [requests.get]. *)
Inductive fetched :=
| RequestException
| Response (status_code : Z) (text : string).

(** One element selected by BeautifulSoup: its text nodes in document order
    and its attributes. *)
Record card := { strings : list string; attrs : gmap string string }.

Record product := { p_sku : string; p_name : string }.

(** ** Python string operations used by the scraper (ASCII text) *)

Definition isspace (c : ascii) : bool :=
  let n := nat_of_ascii c in
  ((9 <=? n) && (n <=? 13) || (28 <=? n) && (n <=? 32))%nat.

Definition lower_char (c : ascii) : ascii :=
  let n := nat_of_ascii c in
  if ((65 <=? n) && (n <=? 90))%nat then ascii_of_nat (n + 32) else c.

Fixpoint lower (s : string) : string :=
  match s with
  | "" => ""
  | String c s' => String (lower_char c) (lower s')
  end.

Fixpoint lstrip (s : string) : string :=
  match s with
  | "" => ""
  | String c s' => if isspace c then lstrip s' else s
  end.

Fixpoint rstrip (s : string) : string :=
  match s with
  | "" => ""
  | String c s' =>
      match rstrip s' with
      | "" => if isspace c then "" else String c ""
      | r => String c r
      end
  end.

Definition strip (s : string) : string := rstrip (lstrip s).

Fixpoint join (sep : string) (l : list string) : string :=
  match l with
  | [] => ""
  | [x] => x
  | x :: l' => x +:+ sep +:+ join sep l'
  end.

(** [s[:n]] *)
Definition upto (n : nat) (s : string) : string := String.substring 0 n s.

(** [needle in s] *)
Definition contains (needle s : string) : bool :=
  match String.index 0 needle s with Some _ => true | None => false end.

(** [s.split(sep)] for a separator that is not empty. *)
Fixpoint split_fuel (fuel : nat) (sep s : string) : list string :=
  match fuel with
  | O => [s]
  | S fuel' =>
      match String.index 0 sep s with
      | None => [s]
      | Some i =>
          String.substring 0 i s ::
          split_fuel fuel' sep
            (String.substring (i + String.length sep)
               (String.length s - (i + String.length sep)) s)
      end
  end.

Definition split (sep s : string) : list string :=
  split_fuel (String.length s) sep s.

(** [s.split()]: the maximal runs of characters that are not whitespace. *)
Fixpoint split_ws_acc (cur : string) (s : string) : list string :=
  match s with
  | "" => match cur with "" => [] | _ => [cur] end
  | String c s' =>
      if isspace c
      then match cur with "" => split_ws_acc "" s' | _ => cur :: split_ws_acc "" s' end
      else split_ws_acc (cur +:+ String c "") s'
  end.

Definition split_ws (s : string) : list string := split_ws_acc "" s.

(** [card.get_text(sep, strip=True)] *)
Definition get_text (sep : string) (c : card) : string :=
  join sep (List.filter (fun s => negb (String.eqb s "")) (List.map strip (strings c))).

(** ** A concrete environment

    Stand-ins for the configuration and the library primitives, and a small
    store, on which the handlers can be run. *)

Definition demo_secret : string := "dev-secret-change".

Definition demo_hs256 (key alg : string) (payload : option doc) : string :=
  "mac:" +:+ key +:+ ":" +:+ alg +:+ ":" +:+
  match payload with
  | Some claims =>
      match claims !! "sub" with
      | Some (VStr s) => s
      | _ => ""
      end
  | None => ""
  end.

Definition demo_pwd_hash (salt password : string) : string :=
  salt +:+ "$" +:+ password.

Definition demo_pwd_verify (password hashed : string) : bool :=
  match String.index 0 "$" hashed with
  | Some i =>
      String.eqb
        (String.substring (S i) (String.length hashed - S i) hashed) password
  | None => false
  end.

(** The whole page as one product card without attributes. *)
Definition demo_soup_select (html : string) : option (list card) :=
  Some [{| strings := [html]; attrs := ∅ |}].

Definition demo_technician : doc :=
  {[ "_id" := VOid (oid_of_N 0);
     "name" := VStr "Tess";
     "email" := VStr "tess@example.com";
     "role" := VStr "technician";
     "password_hash" := VStr "salt$spanner";
     "phone" := VNone;
     "is_active" := VBool true ]}.

Definition demo_office : doc :=
  {[ "_id" := VOid (oid_of_N 1);
     "name" := VStr "Olaf";
     "email" := VStr "olaf@example.com";
     "role" := VStr "office";
     "password_hash" := VStr "salt$ledger";
     "phone" := VStr "+31 20 555 0100";
     "is_active" := VBool true ]}.

Definition demo_store : store :=
  {| users := [demo_technician; demo_office];
     inventoryitems := []; technicianstocks := []; workorders := [];
     next_id := 2; oplog := [] |}.

Definition demo_new_user : User.t :=
  {| User.name := "Ines"; User.email := "ines@example.com";
     User.role := technician; User.password_hash := "wrench";
     User.phone := None; User.is_active := true |}.

Definition demo_params : SupplierScrapeParams.t :=
  {| SupplierScrapeParams.url := "https://supplier.example/catalog";
     SupplierScrapeParams.max_items := 200 |}.

(** A token with a valid signature whose subject is the id of [u], without
    expiry. *)
Definition demo_token_for (u : doc) : token :=
  let payload :=
    Some ({["sub" := VStr (py_str (default VNone (u !! "_id")))]} : doc) in
  Jws "HS256" payload (demo_hs256 demo_secret "HS256" payload).

(** ** main.py *)

Definition JWT_ALGORITHM : string := "HS256".
Definition ACCESS_TOKEN_EXPIRE_MINUTES : Z := 60 * 24.

(** A [timedelta] of [m] minutes, in microseconds. *)
Definition minutes (m : Z) : Z := m * 60 * 1000000.

(** [calendar.timegm(t.utctimetuple())]: whole seconds since the epoch. *)
Definition timegm (t : Z) : Z := t / 1000000.

(** What [json.dumps] accepts among the values. *)
Definition json_serializable (v : value) : bool :=
  match v with VOid _ | VDate _ => false | _ => true end.

Definition lift {A} (o : outcome A) : M A := fun st => (o, st).

(** Truth value of an optional document: [None] and the empty dict are
    false. *)
Definition truthy (o : option doc) : bool :=
  match o with
  | None => false
  | Some d => negb (bool_decide (d = ∅))
  end.

Section App.

(** Process configuration and library primitives. *)
Variable JWT_SECRET : string.
(** HMAC-SHA256 of the protected header and payload under a key. *)
Variable hs256 : string -> string -> option doc -> string.
(** [pwd_context.hash] with the salt it draws, and [pwd_context.verify]. *)
Variable pwd_hash : string -> string -> string.
Variable pwd_verify : string -> string -> bool.
(** [BeautifulSoup(html, 'lxml').select('[class*="product" i]')];
    [None] when the library raises. *)
Variable soup_select : string -> option (list card).

(** *** python-jose *)

(** [jwt.encode]: datetimes under the time claims become integer seconds;
    a value JSON cannot carry raises [TypeError]. *)
Definition jwt_encode (claims : doc) (key : string) : outcome token :=
  let conv (v : value) := match v with VDate t => VInt (timegm t) | _ => v end in
  let claims' :=
    alter conv "exp" (alter conv "iat" (alter conv "nbf" claims)) in
  if bool_decide (map_Forall (fun _ v => json_serializable v = true) claims')
  then Return (Jws JWT_ALGORITHM (Some claims')
                 (hs256 key JWT_ALGORITHM (Some claims')))
  else Raise (Error "TypeError").

(** [jwt.decode(token, key, algorithms=[JWT_ALGORITHM])] at clock reading
    [now]: the header algorithm must be allowed, the signature must
    verify, the payload must be a JSON object, an [exp] claim must be an
    integer not in the past, a [sub] claim must be a string.  Every
    failure raises a [JWTError]. *)
Definition jwt_decode (t : token) (key : string) (now : Z) : outcome doc :=
  match t with
  | Unparsable _ => Raise (Error "JWTError")
  | Jws alg payload signature =>
      if negb (String.eqb alg JWT_ALGORITHM) then Raise (Error "JWTError")
      else if negb (String.eqb signature (hs256 key alg payload))
      then Raise (Error "JWTError")
      else
        match payload with
        | None => Raise (Error "JWTError")
        | Some claims =>
            let exp_ok :=
              match claims !! "exp" with
              | None => true
              | Some (VInt e) => negb (e <? timegm now)
              | Some _ => false
              end in
            let sub_ok :=
              match claims !! "sub" with
              | None | Some (VStr _) => true
              | Some _ => false
              end in
            if exp_ok && sub_ok then Return claims
            else Raise (Error "JWTError")
        end
  end.

(** *** Helpers *)

Definition verify_password (plain_password hashed_password : string) : bool :=
  pwd_verify plain_password hashed_password.

Definition get_password_hash (salt password : string) : string :=
  pwd_hash salt password.

Definition user_collection : collection := user.

(** [UserPublic(...)] validates that its four fields are strings. *)
Definition to_public_user (d : doc) : outcome UserPublic.t :=
  match d !! "_id" with
  | None => Raise (Error "KeyError")
  | Some i =>
      match d !! "name", d !! "email", default (VStr "technician") (d !! "role") with
      | Some (VStr n), Some (VStr e), VStr r =>
          Return {| UserPublic.id := py_str i; UserPublic.name := n;
                    UserPublic.email := e; UserPublic.role := r |}
      | _, _, _ => Raise (Error "ValidationError")
      end
  end.

Definition authenticate_user (email password : string) : M (option doc) :=
  u ← find_one user_collection {["email" := VStr email]};
  if negb (truthy u) then mret None
  else
    match u with
    | None => mret None
    | Some d =>
        match default (VStr "") (d !! "password_hash") with
        | VStr h =>
            if negb (verify_password password h) then mret None
            else mret (Some d)
        | _ => raise (Error "TypeError")
        end
    end.

(** [expires_delta or timedelta(minutes=...)]: a zero delta counts as
    absent. *)
Definition create_access_token (now : Z) (data : doc) (expires_delta : option Z)
  : outcome token :=
  let delta :=
    match expires_delta with
    | Some d => if d =? 0 then minutes ACCESS_TOKEN_EXPIRE_MINUTES else d
    | None => minutes ACCESS_TOKEN_EXPIRE_MINUTES
    end in
  let expire := now + delta in
  let to_encode := <["exp" := VDate expire]> data in
  jwt_encode to_encode JWT_SECRET.

Definition credentials_exception : exn :=
  HTTPException 401 "Could not validate credentials".

(** [ObjectId(user_id)] on what [payload.get("sub")] gave. *)
Definition ObjectId (v : value) : outcome oid :=
  match v with
  | VStr s =>
      match ObjectId_of_str s with
      | Some o => Return o
      | None => Raise (Error "InvalidId")
      end
  | VOid o => Return o
  | _ => Raise (Error "TypeError")
  end.

Definition get_current_user (now : Z) (tok : token) : M doc :=
  user_id ← try_except
    (payload ← lift (jwt_decode tok JWT_SECRET now);
     match payload !! "sub" with
     | None | Some VNone => raise credentials_exception
     | Some user_id => mret user_id
     end)
    (fun _ => raise credentials_exception);
  o ← lift (ObjectId user_id);
  u ← find_one user_collection {["_id" := VOid o]};
  match u with
  | None => raise credentials_exception
  | Some d => mret d
  end.

(** [OAuth2PasswordBearer]: the bearer token of the Authorization header,
    or 401 when the request carries none. *)
Definition oauth2_scheme (authorization : option token) : M token :=
  match authorization with
  | Some tok => mret tok
  | None => raise (HTTPException 401 "Not authenticated")
  end.

(** [current_user=Depends(get_current_user)] *)
Definition with_current_user {A} (now : Z) (authorization : option token)
    (handler : doc -> M A) : M A :=
  tok ← oauth2_scheme authorization;
  current_user ← get_current_user now tok;
  handler current_user.

(** *** Auth routes *)

Definition register (salt : string) (u : User.t) : M UserPublic.t :=
  existing ← find_one user_collection {["email" := VStr (User.email u)]};
  if truthy existing
  then raise (HTTPException 400 "Email already registered")
  else
    let data := User.model_dump u in
    let data :=
      <["password_hash" := VStr (get_password_hash salt (User.password_hash u))]>
        (delete "password_hash" data) in
    user_id ← create_document user data;
    o ← lift (ObjectId (VStr user_id));
    created ← find_one user_collection {["_id" := VOid o]};
    match created with
    | None => raise (Error "TypeError")
    | Some d => lift (to_public_user d)
    end.

Definition login (now : Z) (username password : string) : M Token.t :=
  u ← authenticate_user username password;
  if negb (truthy u)
  then raise (HTTPException 400 "Incorrect email or password")
  else
    match u with
    | None => raise (HTTPException 400 "Incorrect email or password")
    | Some d =>
        match d !! "_id" with
        | None => raise (Error "KeyError")
        | Some i =>
            tok ← lift (create_access_token now {["sub" := VStr (py_str i)]} None);
            mret {| Token.access_token := tok; Token.token_type := "bearer" |}
        end
    end.

Definition me (current_user : doc) : M UserPublic.t :=
  lift (to_public_user current_user).

(** *** Inventory sync (experimental scraper) *)

(** The first of the data attributes the card has. *)
Fixpoint first_attr (c : card) (names : list string) : option string :=
  match names with
  | [] => None
  | a :: names' =>
      match attrs c !! a with
      | Some v => Some v
      | None => first_attr c names'
      end
  end.

(** The keyword scan: the first keyword that occurs in the text (compared
    in lower case) and splits it (compared as written) decides; the token
    after it is [parts[1].split()[0][:64]], an [IndexError] when nothing
    but whitespace follows the keyword. *)
Fixpoint scan_keys (txt : string) (keys : list string) (sku : option string)
  : outcome (option string) :=
  match keys with
  | [] => Return sku
  | key :: keys' =>
      if contains (lower key) (lower txt) then
        let parts := split key txt in
        if (1 <? length parts)%nat then
          match split_ws (nth 1 parts "") with
          | [] => Raise (Error "IndexError")
          | w :: _ => Return (Some (upto 64 w))
          end
        else scan_keys txt keys' sku
      else scan_keys txt keys' sku
  end.

Definition nonempty (o : option string) : bool :=
  match o with
  | None => false
  | Some s => negb (String.eqb s "")
  end.

Fixpoint parse_cards (cards : list card) (items : list product)
  : outcome (list product) :=
  match cards with
  | [] => Return items
  | c :: cards' =>
      let name := upto 200 (get_text "" c) in
      let sku := first_attr c ["data-sku"; "data-article"; "data-code"] in
      match (if negb (nonempty sku)
             then scan_keys (get_text " " c) ["SKU"; "Artikel"; "Art."; "Code"] sku
             else Return sku) with
      | Raise e => Raise e
      | Return sku =>
          match sku with
          | Some k =>
              if negb (String.eqb name "") && nonempty sku
              then parse_cards cards' (items ++ [{| p_sku := k; p_name := name |}])
              else parse_cards cards' items
          | None => parse_cards cards' items
          end
      end
  end.

Definition parse_products_from_html (html : string) : outcome (list product) :=
  match soup_select html with
  | None => Raise (Error "Exception")
  | Some cards => parse_cards cards []
  end.

(** [products[:n]] with Python's treatment of a negative bound. *)
Definition slice_to {A} (n : Z) (l : list A) : list A :=
  if n <? 0 then take (Z.to_nat (Z.of_nat (length l) + n)) l
  else take (Z.to_nat n) l.

(** The upsert loop; [now i] is the clock at the [i]-th iteration. *)
Fixpoint upsert_items (now : nat -> Z) (i : nat) (items : list product)
    (upserted : Z) : M Z :=
  match items with
  | [] => mret upserted
  | item :: items' =>
      _ ← update_one_upsert inventoryitem
            {["sku" := VStr (p_sku item)]}
            {[ "sku" := VStr (p_sku item);
               "name" := VStr (p_name item);
               "supplier" := VStr "mijninstallatiepartner";
               "active" := VBool true;
               "updated_at" := VDate (now i) ]};
      upsert_items now (S i) items' (upserted + 1)
  end.

(** [net] is what [requests.get] answers for a URL at the time of the
    call. *)
Definition inventory_scrape (net : string -> fetched) (now : nat -> Z)
    (params : SupplierScrapeParams.t) (current_user : doc) : M doc :=
  if negb (bool_decide (current_user !! "role" = Some (VStr "office")))
  then raise (HTTPException 403 "Only office can sync inventory")
  else
    products ← try_except
      (match net (SupplierScrapeParams.url params) with
       | RequestException => raise (Error "RequestException")
       | Response status_code text =>
           if negb (status_code =? 200)
           then raise (HTTPException 400 "Cannot fetch supplier page")
           else lift (parse_products_from_html text)
       end)
      (fun e =>
         match e with
         | HTTPException _ _ => raise e
         | Error _ => raise (HTTPException 400 "Failed to parse supplier page")
         end);
    upserted ← upsert_items now 0
      (slice_to (SupplierScrapeParams.max_items params) products) 0;
    mret {["status" := VStr "ok"; "upserted" := VInt upserted]}.

(** *** Technician stock endpoints *)

Definition user_id_of (current_user : doc) : outcome string :=
  match current_user !! "_id" with
  | None => Raise (Error "KeyError")
  | Some i => Return (py_str i)
  end.

(** [it["id"] = str(it.pop("_id"))] for each row. *)
Fixpoint rename_ids (items : list doc) : outcome (list doc) :=
  match items with
  | [] => Return []
  | it :: items' =>
      match it !! "_id" with
      | None => Raise (Error "KeyError")
      | Some i =>
          match rename_ids items' with
          | Raise e => Raise e
          | Return r => Return (<["id" := VStr (py_str i)]> (delete "_id" it) :: r)
          end
      end
  end.

Definition my_stock (current_user : doc) : M (list doc) :=
  if negb (bool_decide (current_user !! "role" = Some (VStr "technician")))
  then raise (HTTPException 403 "Only technicians have personal stock")
  else
    uid ← lift (user_id_of current_user);
    items ← find_all technicianstock {["user_id" := VStr uid]};
    lift (rename_ids items).

Definition update_stock (now : Z) (update : StockUpdate.t) (current_user : doc)
  : M doc :=
  if negb (bool_decide (current_user !! "role" = Some (VStr "technician")))
  then raise (HTTPException 403 "Only technicians can update their stock")
  else
    uid ← lift (user_id_of current_user);
    _ ← update_one_upsert technicianstock
          {["user_id" := VStr uid; "sku" := VStr (StockUpdate.sku update)]}
          {["quantity" := VInt (Z.max 0 (StockUpdate.quantity update));
            "updated_at" := VDate now]};
    mret {["status" := VStr "ok"]}.

Definition stock_overview (current_user : doc) : M (list doc) :=
  if negb (bool_decide (current_user !! "role" = Some (VStr "office")))
  then raise (HTTPException 403 "Only office can view all technicians' stock")
  else
    rows ← find_all technicianstock ∅;
    mret (List.map (fun r : doc =>
            ({[ "id" := VStr (py_str (default VNone (r !! "_id")));
                "user_id" := default VNone (r !! "user_id");
                "sku" := default VNone (r !! "sku");
                "quantity" := default (VInt 0) (r !! "quantity") ]} : doc)) rows).

(** *** Work order completion via the OptimoRoute webhook *)

(** [payload.completed_at or datetime.now(timezone.utc).isoformat()] *)
Definition completed_at_or_now (now : Z) (payload : RouteCompletion.t) : string :=
  match RouteCompletion.completed_at payload with
  | Some s => if String.eqb s "" then isoformat now else s
  | None => isoformat now
  end.

Definition optimoroute_webhook (now : Z) (payload : RouteCompletion.t) : M doc :=
  _ ← update_one_upsert workorder
        {["order_id" := VStr (RouteCompletion.order_id payload)]}
        {["status" := VStr "completed";
          "completed_at" := VStr (completed_at_or_now now payload)]};
  mret {["status" := VStr "ok"]}.

(** *** The bearer-protected routes: dependency, then handler *)

Definition route_me (t_auth : Z) (authorization : option token) :=
  with_current_user t_auth authorization me.

Definition route_inventory_scrape (t_auth : Z) (authorization : option token)
    (net : string -> fetched) (now : nat -> Z) (params : SupplierScrapeParams.t) :=
  with_current_user t_auth authorization (inventory_scrape net now params).

Definition route_my_stock (t_auth : Z) (authorization : option token) :=
  with_current_user t_auth authorization my_stock.

Definition route_update_stock (t_auth : Z) (authorization : option token)
    (now : Z) (update : StockUpdate.t) :=
  with_current_user t_auth authorization (update_stock now update).

Definition route_stock_overview (t_auth : Z) (authorization : option token) :=
  with_current_user t_auth authorization stock_overview.

(** ** Notions used to state the properties *)

(** Whether some document of a collection matches a filter, and how many
    do. *)
Definition has (flt : doc) (l : list doc) : bool := existsb (matches flt) l.

Definition count (flt : doc) (l : list doc) : nat :=
  length (List.filter (matches flt) l).

(** What [update_one_upsert] does to the collection it addresses, given the
    id the driver would generate. *)
Definition new_doc (flt fields : doc) (o : oid) : doc :=
  <["_id" := VOid o]> (apply_set fields flt).

Definition upsert_coll (flt fields : doc) (o : oid) (l : list doc) : list doc :=
  match update_first flt fields l with
  | Some l' => l'
  | None => l ++ [new_doc flt fields o]
  end.

(** The same on a collection paired with the id counter. *)
Definition upsert_pure (flt fields : doc) (s : list doc * N) : list doc * N :=
  (upsert_coll flt fields (oid_of_N s.2) s.1,
   if has flt s.1 then s.2 else N.succ s.2).

(** A catalog with the server-side timestamps left out. *)
Definition erase (l : list doc) : list doc := List.map (delete "updated_at") l.

(** The filter and the fields of the catalog upsert for one product, the
    latter without the timestamp. *)
Definition sku_filter (s : string) : doc := {["sku" := VStr s]}.

Definition item_fields (item : product) : doc :=
  {[ "sku" := VStr (p_sku item);
     "name" := VStr (p_name item);
     "supplier" := VStr "mijninstallatiepartner";
     "active" := VBool true ]}.

Definition sync_step (item : product) (s : list doc * N) : list doc * N :=
  upsert_pure (sku_filter (p_sku item)) (item_fields item) s.

Definition sync (items : list product) (s : list doc * N) : list doc * N :=
  fold_left (fun s item => sync_step item s) items s.

(** The filter of the stock upsert: one row per (user id, sku). *)
Definition stock_filter (uid sku : string) : doc :=
  {["user_id" := VStr uid; "sku" := VStr sku]}.

Definition order_filter (order_id : string) : doc :=
  {["order_id" := VStr order_id]}.

(** The ids of a collection all come from the generator: this holds of
    every collection the handlers have filled. *)
Definition generated_ids (l : list doc) (next : N) : Prop :=
  Forall (fun d : doc =>
    exists k, (k < next)%N /\ d !! "_id" = Some (VOid (oid_of_N k))) l.

(** The fields [update_stock] sets: they name neither key of the filter. *)
Definition stock_fields (q now : Z) : doc :=
  {["quantity" := VInt (Z.max 0 q); "updated_at" := VDate now]}.

(** The fields the webhook sets. *)
Definition order_fields (completed_at : string) : doc :=
  {["status" := VStr "completed"; "completed_at" := VStr completed_at]}.

(** The fields the catalog upsert sets at clock reading [t]. *)
Definition item_fields_at (item : product) (t : Z) : doc :=
  {[ "sku" := VStr (p_sku item);
     "name" := VStr (p_name item);
     "supplier" := VStr "mijninstallatiepartner";
     "active" := VBool true;
     "updated_at" := VDate t ]}.

(** What a scrape request extracts before it writes: the products of the
    page, cut to [max_items]; [None] when the fetch or the extraction
    fails. *)
Definition scraped (net : string -> fetched) (params : SupplierScrapeParams.t)
  : option (list product) :=
  match net (SupplierScrapeParams.url params) with
  | RequestException => None
  | Response status_code text =>
      if status_code =? 200 then
        match parse_products_from_html text with
        | Return products =>
            Some (slice_to (SupplierScrapeParams.max_items params) products)
        | Raise _ => None
        end
      else None
  end.

(** The message of the 400 a failed scrape answers. *)
Definition failure_detail (net : string -> fetched)
    (params : SupplierScrapeParams.t) : string :=
  match net (SupplierScrapeParams.url params) with
  | Response status_code _ =>
      if status_code =? 200 then "Failed to parse supplier page"
      else "Cannot fetch supplier page"
  | RequestException => "Failed to parse supplier page"
  end.

(** The claims of the token [login] issues at clock reading [now] for the
    user whose id prints as [sub], and that token. *)
Definition issued_claims (now : Z) (sub : string) : doc :=
  {["exp" := VInt (timegm now + 86400); "sub" := VStr sub]}.

Definition issued_token (now : Z) (sub : string) : token :=
  Jws JWT_ALGORITHM (Some (issued_claims now sub))
    (hs256 JWT_SECRET JWT_ALGORITHM (Some (issued_claims now sub))).

Definition email_filter (email : string) : doc := {["email" := VStr email]}.




(** A computation after which the store is related by [R] to the store
    before, whatever it answers. *)
Definition respects {A} (R : store -> store -> Prop) (m : M A) : Prop :=
  forall st, R st (m st).2.

(** A computation that leaves collection [c] as it found it. *)
Definition keeps {A} (c : collection) (m : M A) : Prop :=
  respects (fun st st' => db c st' = db c st) m.

(** What makes a relation one that handlers respect: it is reflexive and
    transitive, holds across an entry in the operation log, and holds
    across a write to any collection among [writable]. *)
Record frame (R : store -> store -> Prop) (writable : collection -> Prop)
  : Prop := {
  frame_refl : forall st, R st st;
  frame_trans : forall st1 st2 st3, R st1 st2 -> R st2 st3 -> R st1 st3;
  frame_log : forall e st, R st (log e st);
  frame_upsert : forall c flt fields,
    writable c -> respects R (update_one_upsert c flt fields);
  frame_create : forall c data,
    writable c -> respects R (create_document c data)
}.

(** The requests that reach the store, with what the environment supplies
    to each (clock readings, the salt drawn by the password hasher, the
    state of the network). *)
Inductive request :=
| POST_auth_register (salt : string) (u : User.t)
| POST_auth_login (now : Z) (username password : string)
| GET_auth_me (t_auth : Z) (authorization : option token)
| POST_inventory_scrape (t_auth : Z) (authorization : option token)
    (net : string -> fetched) (now : nat -> Z) (params : SupplierScrapeParams.t)
| GET_stock_mine (t_auth : Z) (authorization : option token)
| POST_stock_update (t_auth : Z) (authorization : option token) (now : Z)
    (update : StockUpdate.t)
| GET_stock_overview (t_auth : Z) (authorization : option token)
| POST_optimoroute_webhook (now : Z) (payload : RouteCompletion.t).

(** The store a request leaves behind, whatever it answers. *)
Definition serve (r : request) (st : store) : store :=
  match r with
  | POST_auth_register salt u => (register salt u st).2
  | POST_auth_login now username password => (login now username password st).2
  | GET_auth_me t_auth a => (route_me t_auth a st).2
  | POST_inventory_scrape t_auth a net now params =>
      (route_inventory_scrape t_auth a net now params st).2
  | GET_stock_mine t_auth a => (route_my_stock t_auth a st).2
  | POST_stock_update t_auth a now update =>
      (route_update_stock t_auth a now update st).2
  | GET_stock_overview t_auth a => (route_stock_overview t_auth a st).2
  | POST_optimoroute_webhook now payload => (optimoroute_webhook now payload st).2
  end.

(** The stores the service can be in, starting from an empty database. *)
Inductive reachable : store -> Prop :=
| reachable_empty : reachable empty_store
| reachable_serve (r : request) (st : store) :
    reachable st -> reachable (serve r st).


(** The row [my_stock] answers for a stored row: [_id] popped, its text
    under [id]. *)
Definition public_row (d : doc) : doc :=
  <["id" := VStr (py_str (default VNone (d !! "_id")))]> (delete "_id" d).

(** The entry [stock_overview] answers for a stored row. *)
Definition overview_row (r : doc) : doc :=
  {[ "id" := VStr (py_str (default VNone (r !! "_id")));
     "user_id" := default VNone (r !! "user_id");
     "sku" := default VNone (r !! "sku");
     "quantity" := default (VInt 0) (r !! "quantity") ]}.

Definition owner_filter (uid : string) : doc := {["user_id" := VStr uid]}.


(** Every document of a collection has an [_id], as in any MongoDB
    collection. *)
Definition all_have_id (l : list doc) : Prop :=
  Forall (fun d : doc => is_Some (d !! "_id")) l.


(** The data attributes and the keywords the scraper looks for, in the
    order it tries them. *)
Definition sku_attrs : list string := ["data-sku"; "data-article"; "data-code"].
Definition sku_keys : list string := ["SKU"; "Artikel"; "Art."; "Code"].

(** How a product relates to the card it was extracted from. *)
Definition extracted_from (c : card) (p : product) : Prop :=
  p_name p = upto 200 (get_text "" c) /\
  p_name p <> "" /\ p_sku p <> "" /\
  (String.length (p_name p) <= 200)%nat /\
  (first_attr c sku_attrs = Some (p_sku p) \/
   (nonempty (first_attr c sku_attrs) = false /\
    (String.length (p_sku p) <= 64)%nat)).

(** A card on which the keyword scan raises. *)
Definition card_raises (c : card) : Prop :=
  nonempty (first_attr c sku_attrs) = false /\
  exists e, scan_keys (get_text " " c) sku_keys (first_attr c sku_attrs) = Raise e.


(** The name the last item with a given sku carries in a list of
    products. *)
Fixpoint last_name (items : list product) (sku : string) : option string :=
  match items with
  | [] => None
  | x :: items' =>
      match last_name items' sku with
      | Some n => Some n
      | None => if String.eqb (p_sku x) sku then Some (p_name x) else None
      end
  end.


(** The catalog upserts of the sync loop on the catalog paired with the id
    counter, timestamps included: [now i] is the clock at iteration [i]. *)
Fixpoint sync_at (now : nat -> Z) (i : nat) (items : list product)
    (s : list doc * N) : list doc * N :=
  match items with
  | [] => s
  | item :: items' =>
      sync_at now (S i) items'
        (upsert_pure (sku_filter (p_sku item)) (item_fields_at item (now i)) s)
  end.

(** At most one document per key, for a family of filters. *)
Definition unique_by {K} (key_filter : K -> doc) (l : list doc) : Prop :=
  forall k, (count (key_filter k) l <= 1)%nat.


(** Whether a handler answered with an error, and whether a request is
    answered with one. *)
Definition failed {A} (r : outcome A * store) : bool :=
  match r.1 with
  | Return _ => false
  | Raise _ => true
  end.

Definition answer_fails (r : request) (st : store) : bool :=
  match r with
  | POST_auth_register salt u => failed (register salt u st)
  | POST_auth_login now username password => failed (login now username password st)
  | GET_auth_me t_auth a => failed (route_me t_auth a st)
  | POST_inventory_scrape t_auth a net now params =>
      failed (route_inventory_scrape t_auth a net now params st)
  | GET_stock_mine t_auth a => failed (route_my_stock t_auth a st)
  | POST_stock_update t_auth a now update =>
      failed (route_update_stock t_auth a now update st)
  | GET_stock_overview t_auth a => failed (route_stock_overview t_auth a st)
  | POST_optimoroute_webhook now payload => failed (optimoroute_webhook now payload st)
  end.


(** The ids of a collection, in the order of its documents. *)
Definition ids (l : list doc) : list (option value) :=
  List.map (fun d : doc => d !! "_id") l.

(** The documents a filter does not address. *)
Definition others (flt : doc) (l : list doc) : list doc :=
  List.filter (fun d => negb (matches flt d)) l.

(** An [HTTPException] status, by its name in [starlette.status]. *)
Definition HTTP_400_BAD_REQUEST : Z := 400.
Definition HTTP_401_UNAUTHORIZED : Z := 401.
Definition HTTP_403_FORBIDDEN : Z := 403.

(** The fields [schemas.WorkOrder] declares without a default. *)
Definition WorkOrder_required : list string := ["order_id"; "technician_id"].

Definition N_of_hexdigit (h : hexdigit) : N :=
match h with
| X0 => 0 | X1 => 1 | X2 => 2 | X3 => 3 | X4 => 4 | X5 => 5 | X6 => 6
| X7 => 7 | X8 => 8 | X9 => 9 | Xa => 10 | Xb => 11 | Xc => 12
| Xd => 13 | Xe => 14 | Xf => 15
end%N.

Fixpoint N_of_digits (o : oid) : N :=
match o with
| [] => 0
| h :: o' => N_of_hexdigit h + 16 * N_of_digits o'
end%N.

(** * Properties *)

(** ** ObjectId: text form and generation *)

Lemma hexval_hexchar (h : hexdigit) : hexval (hexchar h) = Some h.
Proof. by destruct h. Qed.

Lemma parse_hex_str_oid (o : oid) : parse_hex (str_oid o) = Some o.
Proof.
induction o as [|h o IH]; [done|].
cbn [str_oid parse_hex]. by rewrite hexval_hexchar, IH.
Qed.

Lemma length_str_oid (o : oid) : String.length (str_oid o) = length o.
Proof. induction o as [|h o IH]; [done|]. cbn. by rewrite IH. Qed.

Lemma ObjectId_of_str_str_oid (o : oid) :
wf_oid o -> ObjectId_of_str (str_oid o) = Some o.
Proof.
intros Hwf. unfold ObjectId_of_str.
rewrite length_str_oid, Hwf. cbn. apply parse_hex_str_oid.
Qed.

Lemma ObjectId_str_oid (o : oid) :
wf_oid o -> ObjectId (VStr (str_oid o)) = Return o.
Proof. intros Hwf. unfold ObjectId. by rewrite ObjectId_of_str_str_oid. Qed.

Lemma length_oid_digits (k : nat) (n : N) : length (oid_digits k n) = k.
Proof. revert n. induction k as [|k IH]; intros n; [done|]. cbn. by rewrite IH. Qed.

Lemma oid_of_N_wf (n : N) : wf_oid (oid_of_N n).
Proof. unfold wf_oid, oid_of_N. by rewrite length_rev, length_oid_digits. Qed.

Lemma N_of_hexdigit_of_N (n : N) :
  (n < 16)%N -> N_of_hexdigit (hexdigit_of_N n) = n.
Proof.
  intros Hn. destruct n as [|p]; [reflexivity|].
  do 4 (destruct p as [p|p|]; try reflexivity); lia.
Qed.

Lemma N_of_oid_digits (k : nat) (n : N) :
N_of_digits (oid_digits k n) = (n mod 16 ^ N.of_nat k)%N.
Proof.
revert n. induction k as [|k IH]; intros n.
- cbn. by rewrite N.mod_1_r.
- cbn [oid_digits N_of_digits]. rewrite IH.
  rewrite N_of_hexdigit_of_N by (apply N.mod_lt; lia).
  rewrite Nat2N.inj_succ, N.pow_succ_r'.
  rewrite (N.Div0.mod_mul_r n 16 (16 ^ N.of_nat k)). lia.
Qed.

Lemma oid_of_N_inj (n m : N) :
(n < 16 ^ 24)%N -> (m < 16 ^ 24)%N -> oid_of_N n = oid_of_N m -> n = m.
Proof.
intros Hn Hm Heq. unfold oid_of_N in Heq.
apply (f_equal (@rev hexdigit)) in Heq. rewrite !rev_involutive in Heq.
apply (f_equal N_of_digits) in Heq. rewrite !N_of_oid_digits in Heq.
change (N.of_nat 24) with 24%N in Heq.
by rewrite !N.mod_small in Heq.
Qed.

(** ** Filters and the first-match update *)

Lemma matches_true (flt d : doc) :
  matches flt d = true <-> forall k v, flt !! k = Some v -> d !! k = Some v.
Proof. unfold matches. rewrite bool_decide_eq_true. apply map_Forall_lookup. Qed.

Lemma matches_false (flt d : doc) :
  matches flt d = false <->
  exists k v, flt !! k = Some v /\ d !! k <> Some v.
Proof.
  rewrite <- not_true_iff_false, matches_true. split.
  - intros Hn. destruct (decide (map_Forall (fun k v => d !! k = Some v) flt))
      as [Hall | Hnall].
    + exfalso. apply Hn. by apply map_Forall_lookup.
    + apply map_not_Forall in Hnall; [|apply _].
      destruct Hnall as (k & v & Hk & Hv). eauto.
  - intros (k & v & Hk & Hv) Hall. apply Hv. by apply Hall.
Qed.

Lemma matches_singleton (k : string) (v : value) (d : doc) :
  matches {[k := v]} d = bool_decide (d !! k = Some v).
Proof.
  apply eq_true_iff_eq. rewrite matches_true, bool_decide_eq_true. split.
  - intros H. apply H. apply lookup_singleton_eq.
  - intros H k' v' [-> ->]%lookup_singleton_Some. done.
Qed.

Lemma matches_empty (d : doc) : matches ∅ d = true.
Proof. apply matches_true. intros k v. by rewrite lookup_empty. Qed.

(** A document that matches a filter naming some field is not empty. *)
Lemma matches_nonempty (flt d : doc) :
  flt <> ∅ -> matches flt d = true -> d <> ∅.
Proof.
  intros Hne Hm ->. apply Hne. apply map_empty. intros k.
  destruct (flt !! k) as [v|] eqn:Hk; [|done].
  rewrite matches_true in Hm. apply Hm in Hk. by rewrite lookup_empty in Hk.
Qed.

(** Setting fields that contain the filter makes any document match. *)
Lemma matches_apply_set_incl (flt fields d : doc) :
  flt ⊆ fields -> matches flt (apply_set fields d) = true.
Proof.
  intros Hsub. apply matches_true. intros k v Hk. unfold apply_set.
  apply lookup_union_Some_raw. left. by eapply lookup_weaken.
Qed.

(** Setting fields the filter does not name leaves matching as it was. *)
Lemma matches_apply_set_disjoint (flt fields d : doc) :
  (forall k, is_Some (flt !! k) -> fields !! k = None) ->
  matches flt (apply_set fields d) = matches flt d.
Proof.
  intros Hdisj. apply eq_true_iff_eq. rewrite !matches_true.
  unfold apply_set. split; intros H k v Hk.
  - specialize (H k v Hk). rewrite lookup_union_r in H; [done|]. eauto.
  - rewrite lookup_union_r; eauto.
Qed.

Lemma update_first_None (flt fields : doc) (l : list doc) :
  update_first flt fields l = None <-> has flt l = false.
Proof.
  unfold has. induction l as [|d l IH]; [done|]. cbn.
  destruct (matches flt d); cbn; [done|].
  rewrite <- IH. by destruct (update_first flt fields l).
Qed.

Lemma update_first_Some (flt fields : doc) (l : list doc) :
  has flt l = true -> is_Some (update_first flt fields l).
Proof.
  intros Hh. destruct (update_first flt fields l) eqn:E; [eauto|].
  apply update_first_None in E. congruence.
Qed.

Lemma upsert_coll_nil (flt fields : doc) (o : oid) :
  upsert_coll flt fields o [] = [new_doc flt fields o].
Proof. done. Qed.

Lemma upsert_coll_cons_match (flt fields : doc) (o : oid) (d : doc) (l : list doc) :
  matches flt d = true ->
  upsert_coll flt fields o (d :: l) = apply_set fields d :: l.
Proof. intros Hm. unfold upsert_coll. cbn. by rewrite Hm. Qed.

Lemma upsert_coll_cons_nomatch (flt fields : doc) (o : oid) (d : doc) (l : list doc) :
  matches flt d = false ->
  upsert_coll flt fields o (d :: l) = d :: upsert_coll flt fields o l.
Proof.
  intros Hm. unfold upsert_coll. cbn. rewrite Hm.
  by destruct (update_first flt fields l).
Qed.

Lemma upsert_coll_absent (flt fields : doc) (o : oid) (l : list doc) :
  has flt l = false -> upsert_coll flt fields o l = l ++ [new_doc flt fields o].
Proof.
  intros Hh. apply (update_first_None flt fields) in Hh.
  unfold upsert_coll. by rewrite Hh.
Qed.

Lemma length_upsert_coll_present (flt fields : doc) (o : oid) (l : list doc) :
  has flt l = true -> length (upsert_coll flt fields o l) = length l.
Proof.
  induction l as [|d l IH]; [done|]. intros Hh.
  destruct (matches flt d) eqn:Hm.
  - by rewrite upsert_coll_cons_match.
  - rewrite upsert_coll_cons_nomatch by done. cbn. f_equal. apply IH.
    unfold has in *. cbn in Hh. by rewrite Hm in Hh.
Qed.

(** The new document of an upsert matches the filter it was made from when
    the filter does not constrain [_id]. *)
Lemma matches_new_doc (flt fields : doc) (o : oid) :
  flt !! "_id" = None ->
  (forall k v, flt !! k = Some v -> default v (fields !! k) = v) ->
  matches flt (new_doc flt fields o) = true.
Proof.
  intros Hid Hagree. apply matches_true. intros k v Hk.
  unfold new_doc, apply_set.
  rewrite lookup_insert_ne by (intros <-; congruence).
  specialize (Hagree k v Hk).
  destruct (fields !! k) as [w|] eqn:Hf; cbn in Hagree.
  - subst. by apply lookup_union_Some_l.
  - by rewrite lookup_union_r.
Qed.

(** After an upsert the first match carries the fields that were set. *)
Lemma find_upsert_coll (flt fields : doc) (o : oid) (l : list doc) :
  flt !! "_id" = None -> fields !! "_id" = None ->
  (forall k v, flt !! k = Some v -> default v (fields !! k) = v) ->
  exists d, List.find (matches flt) (upsert_coll flt fields o l) = Some d /\
            forall k v, fields !! k = Some v -> d !! k = Some v.
Proof.
  intros Hid Hfid Hagree.
  assert (Hstable : forall d, matches flt d = true ->
                    matches flt (apply_set fields d) = true).
  { intros d Hm. apply matches_true. intros k v Hk. unfold apply_set.
    specialize (Hagree k v Hk). rewrite matches_true in Hm.
    destruct (fields !! k) as [w|] eqn:Hf; cbn in Hagree.
    - subst. by apply lookup_union_Some_l.
    - rewrite lookup_union_r by done. by apply Hm. }
  induction l as [|d l IH].
  - rewrite upsert_coll_nil. cbn. rewrite matches_new_doc by done.
    eexists; split; [done|]. intros k v Hk. unfold new_doc, apply_set.
    destruct (decide (k = "_id")) as [->|Hne]; [congruence|].
    rewrite lookup_insert_ne by done. by apply lookup_union_Some_l.
  - destruct (matches flt d) eqn:Hm.
    + rewrite upsert_coll_cons_match by done. cbn. rewrite Hstable by done.
      eexists; split; [done|]. intros k v Hk. by apply lookup_union_Some_l.
    + rewrite upsert_coll_cons_nomatch by done. cbn. by rewrite Hm.
Qed.

(** ** The monadic store operations *)

Ltac unfold_M :=
  unfold mbind, M_bind, mret, M_ret, raise, lift, try_except in *.

Lemma db_set_db (c : collection) (l : list doc) (st : store) :
  db c (set_db c l st) = l.
Proof. by destruct c. Qed.

Lemma db_set_db_ne (c c' : collection) (l : list doc) (st : store) :
  c <> c' -> db c' (set_db c l st) = db c' st.
Proof. by destruct c, c'. Qed.

Lemma set_db_same (c : collection) (st : store) : set_db c (db c st) st = st.
Proof. by destruct c, st. Qed.

(** An upsert answers [None], writes the addressed collection as
    [upsert_pure] says, logs one write and leaves the rest alone. *)
Lemma update_one_upsert_spec (c : collection) (flt fields : doc) (st : store) :
  exists st',
    update_one_upsert c flt fields st = (Return tt, st') /\
    (db c st', next_id st') = upsert_pure flt fields (db c st, next_id st) /\
    oplog st' = Write c :: oplog st /\
    forall c', c <> c' -> db c' st' = db c' st.
Proof.
  unfold update_one_upsert, upsert_pure, upsert_coll. cbn [fst snd].
  destruct (update_first flt fields (db c st)) as [l'|] eqn:E.
  - eexists; split; [done|].
    assert (Hh : has flt (db c st) = true).
    { destruct (has flt (db c st)) eqn:Hh; [done|].
      apply (update_first_None flt fields) in Hh. congruence. }
    rewrite Hh. split; [by destruct c|]. split; [by destruct c|].
    intros c' Hne. by destruct c, c'.
  - eexists; split; [done|].
    apply update_first_None in E. rewrite E.
    split; [by destruct c|]. split; [by destruct c|].
    intros c' Hne. by destruct c, c'.
Qed.

(** ** The auth dependency *)

(** Every way [get_current_user] can end.  It reads the user collection at
    most once and writes nothing. *)
Lemma get_current_user_cases (now : Z) (tok : token) (st : store) :
  get_current_user now tok st = (Raise credentials_exception, st) \/
  (exists name, get_current_user now tok st = (Raise (Error name), st)) \/
  get_current_user now tok st = (Raise credentials_exception, log (Read user) st) \/
  (exists u o, get_current_user now tok st = (Return u, log (Read user) st) /\
               u ∈ users st /\ u !! "_id" = Some (VOid o)).
Proof.
  unfold get_current_user. unfold_M.
  destruct (jwt_decode tok JWT_SECRET now) as [payload|e]; [|by left].
  destruct (payload !! "sub") as [v|]; [|by left].
  destruct v as [|s0|z|b|o|t]; try by left.
  - (* a string subject *)
    unfold ObjectId. destruct (ObjectId_of_str s0) as [o|]; [|right; left; eauto].
    unfold find_one, user_collection. cbn [db fst snd].
    destruct (List.find _ (users st)) as [u|] eqn:Hf; [|by right; right; left].
    right; right; right. exists u, o. split; [done|].
    apply find_some in Hf as [Hin Hm]. split; [by apply list_elem_of_In|].
    rewrite matches_singleton in Hm. by apply bool_decide_eq_true in Hm.
  - right; left; eauto.
  - right; left; eauto.
  - unfold ObjectId.
    unfold find_one, user_collection. cbn [db fst snd].
    destruct (List.find _ (users st)) as [u|] eqn:Hf; [|by right; right; left].
    right; right; right. exists u, o. split; [done|].
    apply find_some in Hf as [Hin Hm]. split; [by apply list_elem_of_In|].
    rewrite matches_singleton in Hm. by apply bool_decide_eq_true in Hm.
  - right; left; eauto.
Qed.

Lemma get_current_user_Return (now : Z) (tok : token) (st st' : store) (u : doc) :
  get_current_user now tok st = (Return u, st') ->
  st' = log (Read user) st /\ u ∈ users st /\ exists o, u !! "_id" = Some (VOid o).
Proof.
  intros H.
  destruct (get_current_user_cases now tok st) as [E|[[n E]|[E|(u' & o & E & Hin & Hid)]]];
    rewrite E in H; try discriminate.
  injection H as <- <-. eauto.
Qed.

(** The protected routes answer what the dependency raised. *)
Lemma with_current_user_Raise {A} (now : Z) (tok : token) (handler : doc -> M A)
    (st st' : store) (e : exn) :
  get_current_user now tok st = (Raise e, st') ->
  with_current_user now (Some tok) handler st = (Raise e, st').
Proof. intros H. unfold with_current_user, oauth2_scheme. unfold_M. by rewrite H. Qed.

Lemma with_current_user_Return {A} (now : Z) (tok : token) (handler : doc -> M A)
    (st st' : store) (u : doc) :
  get_current_user now tok st = (Return u, st') ->
  with_current_user now (Some tok) handler st = handler u st'.
Proof. intros H. unfold with_current_user, oauth2_scheme. unfold_M. by rewrite H. Qed.

(** The failures the dependency turns into 401: no bearer token at all, a
    token [jwt.decode] rejects (bad signature, expired, malformed payload),
    a payload without subject, and a well-formed subject no stored user
    has. *)
Lemma protected_route_unauthorized {A} (now : Z) (authorization : option token)
    (handler : doc -> M A) (st : store) :
  match authorization with
  | None => True
  | Some tok =>
      match jwt_decode tok JWT_SECRET now with
      | Raise _ => True
      | Return payload =>
          match payload !! "sub" with
          | None => True
          | Some v =>
              exists o, ObjectId v = Return o /\
                List.find (matches {["_id" := VOid o]}) (users st) = None
          end
      end
  end ->
  status (with_current_user now authorization handler st).1 = HTTP_401_UNAUTHORIZED /\
  forall c, db c (with_current_user now authorization handler st).2 = db c st.
Proof.
  destruct authorization as [tok|]; [|done].
  unfold with_current_user, oauth2_scheme, get_current_user. unfold_M.
  destruct (jwt_decode tok JWT_SECRET now) as [payload|e]; [|done].
  destruct (payload !! "sub") as [v|]; [|done].
  intros (o & Ho & Hf).
  destruct v as [|s0|z|b|o'|t]; try done; rewrite Ho;
    unfold find_one, user_collection; cbn [db fst snd]; rewrite Hf; (split; [done|]);
    by intros [].
Qed.

(** C1 (the part the code misses): a token that verifies but whose subject
    is not the text of an ObjectId, here "abc", is not answered with 401.
    [ObjectId(user_id)] sits after the try block of [get_current_user], so
    [InvalidId] escapes and each of the five protected routes answers 500,
    with the store untouched. *)
Theorem C1_malformed_subject_is_500 (st : store) (t_auth : Z)
    (net : string -> fetched) (now : nat -> Z) (t : Z)
    (params : SupplierScrapeParams.t) (update : StockUpdate.t) :
  let payload := Some ({["sub" := VStr "abc"]} : doc) in
  let tok := Jws "HS256" payload (hs256 JWT_SECRET "HS256" payload) in
  get_current_user t_auth tok st = (Raise (Error "InvalidId"), st) /\
  status (route_me t_auth (Some tok) st).1 = 500 /\
  status (route_inventory_scrape t_auth (Some tok) net now params st).1 = 500 /\
  status (route_my_stock t_auth (Some tok) st).1 = 500 /\
  status (route_update_stock t_auth (Some tok) t update st).1 = 500 /\
  status (route_stock_overview t_auth (Some tok) st).1 = 500.
Proof.
  intros payload tok.
  assert (H : get_current_user t_auth tok st = (Raise (Error "InvalidId"), st)).
  { unfold get_current_user, tok, payload, jwt_decode. unfold_M.
    rewrite !String.eqb_refl. cbn [negb].
    rewrite lookup_singleton_ne by done. rewrite lookup_singleton_eq.
    cbn [andb]. rewrite lookup_singleton_eq. reflexivity. }
  split; [done|].
  unfold route_me, route_inventory_scrape, route_my_stock, route_update_stock,
    route_stock_overview.
  by rewrite !(with_current_user_Raise _ _ _ _ _ _ H).
Qed.

(** ** Role checks *)

(** C9: for an authenticated caller, /stock/overview answers 403 to a
    technician and /stock/mine answers 403 to an office user; the request
    ends in the store the auth dependency left, whose only new operation is
    the read of the user collection: no stock row is read or written. *)
Theorem C9_wrong_role_forbidden (t_auth : Z) (tok : token) (st st1 : store)
    (u : doc) :
  get_current_user t_auth tok st = (Return u, st1) ->
  (u !! "role" = Some (VStr "technician") ->
   exists detail,
     route_stock_overview t_auth (Some tok) st =
       (Raise (HTTPException HTTP_403_FORBIDDEN detail), st1)) /\
  (u !! "role" = Some (VStr "office") ->
   exists detail,
     route_my_stock t_auth (Some tok) st =
       (Raise (HTTPException HTTP_403_FORBIDDEN detail), st1)) /\
  technicianstocks st1 = technicianstocks st /\
  oplog st1 = Read user :: oplog st.
Proof.
  intros Hu. pose proof (get_current_user_Return _ _ _ _ _ Hu) as (-> & _ & _).
  unfold route_stock_overview, route_my_stock.
  rewrite !(with_current_user_Return _ _ _ _ _ _ Hu).
  split; [|split; [|done]]; intros Hrole.
  - unfold stock_overview. rewrite Hrole.
    rewrite bool_decide_false by done. cbn [negb]. eauto.
  - unfold my_stock. rewrite Hrole.
    rewrite bool_decide_false by done. cbn [negb]. eauto.
Qed.

(** ** Counting rows across an upsert *)

Lemma has_count (flt : doc) (l : list doc) :
  has flt l = false <-> count flt l = 0%nat.
Proof.
  unfold has, count. induction l as [|d l IH]; [done|]. cbn.
  destruct (matches flt d); cbn; [split; discriminate|done].
Qed.


(** Rows are counted under a filter [flt'] the set fields do not disturb:
    an upsert adds at most the one new document. *)
Lemma count_upsert_coll (flt' flt fields : doc) (o : oid) (l : list doc) :
  (forall d, matches flt' (apply_set fields d) = matches flt' d) ->
  count flt' (upsert_coll flt fields o l) =
  (count flt' l +
   if has flt l then 0 else if matches flt' (new_doc flt fields o) then 1 else 0)%nat.
Proof.
  intros Hstable. unfold count, has. induction l as [|d l IH].
  - rewrite upsert_coll_nil. cbn.
    by destruct (matches flt' (new_doc flt fields o)).
  - destruct (matches flt d) eqn:Hm.
    + rewrite upsert_coll_cons_match by done. cbn. rewrite Hm, Hstable. cbn.
      destruct (matches flt' d); cbn; lia.
    + rewrite upsert_coll_cons_nomatch by done. cbn. rewrite Hm. cbn.
      destruct (matches flt' d); cbn; rewrite IH; lia.
Qed.




(** ** Technician stock *)

Lemma update_stock_spec (now : Z) (update : StockUpdate.t) (u : doc) (i : value)
    (st : store) :
  u !! "role" = Some (VStr "technician") ->
  u !! "_id" = Some i ->
  exists st',
    update_stock now update u st = (Return {["status" := VStr "ok"]}, st') /\
    (technicianstocks st', next_id st') =
      upsert_pure (stock_filter (py_str i) (StockUpdate.sku update))
        (stock_fields (StockUpdate.quantity update) now)
        (technicianstocks st, next_id st) /\
    oplog st' = Write technicianstock :: oplog st /\
    forall c, technicianstock <> c -> db c st' = db c st.
Proof.
  intros Hrole Hid. unfold update_stock, user_id_of. rewrite Hrole, Hid.
  rewrite bool_decide_true by done. cbn [negb]. unfold_M.
  destruct (update_one_upsert_spec technicianstock
              (stock_filter (py_str i) (StockUpdate.sku update))
              (stock_fields (StockUpdate.quantity update) now) st)
    as (st' & E & Hdb & Hlog & Hframe).
  exists st'. unfold stock_filter, stock_fields in *. rewrite E. done.
Qed.




(** ** What a handler can change

    A handler respects every [frame] relation whose writable collections
    include the ones it writes. *)

Section Respects.

Variable R : store -> store -> Prop.
Variable writable : collection -> Prop.
Hypothesis HR : frame R writable.

Let R_refl := frame_refl R writable HR.
Let R_trans := frame_trans R writable HR.
Let R_log := frame_log R writable HR.
Let R_upsert := frame_upsert R writable HR.
Let R_create := frame_create R writable HR.

Lemma respects_ret {A} (a : A) : respects R (mret a).
Proof. intros st. apply R_refl. Qed.

Lemma respects_raise {A} (e : exn) : respects R (@raise A e).
Proof. intros st. apply R_refl. Qed.

Lemma respects_lift {A} (o : outcome A) : respects R (lift o).
Proof. intros st. apply R_refl. Qed.

Lemma respects_bind {A B} (m : M A) (f : A -> M B) :
  respects R m -> (forall a, respects R (f a)) -> respects R (m ≫= f).
Proof.
  intros Hm Hf st. unfold_M. specialize (Hm st).
  destruct (m st) as [[a|e] st']; cbn [snd] in *; [|done].
  eapply R_trans; [exact Hm | apply Hf].
Qed.

Lemma respects_try_except {A} (m : M A) (h : exn -> M A) :
  respects R m -> (forall e, respects R (h e)) -> respects R (try_except m h).
Proof.
  intros Hm Hh st. unfold try_except. specialize (Hm st).
  destruct (m st) as [[a|e] st']; cbn [snd] in *; [done|].
  eapply R_trans; [exact Hm | apply Hh].
Qed.

Lemma respects_find_one (c : collection) (flt : doc) : respects R (find_one c flt).
Proof. intros st. apply R_log. Qed.

Lemma respects_find_all (c : collection) (flt : doc) : respects R (find_all c flt).
Proof. intros st. apply R_log. Qed.

Lemma respects_get_current_user (now : Z) (tok : token) :
  respects R (get_current_user now tok).
Proof.
  intros st.
  destruct (get_current_user_cases now tok st)
    as [E|[[n E]|[E|(u & o & E & _)]]]; rewrite E; cbn [snd];
    first [apply R_refl | apply R_log].
Qed.

Lemma respects_with_current_user {A} (now : Z) (authorization : option token)
    (handler : doc -> M A) :
  (forall u, respects R (handler u)) ->
  respects R (with_current_user now authorization handler).
Proof.
  intros Hh. unfold with_current_user. apply respects_bind.
  - unfold oauth2_scheme. destruct authorization;
      [apply respects_ret | apply respects_raise].
  - intros tok. apply respects_bind; [apply respects_get_current_user|done].
Qed.

Lemma respects_upsert_items (now : nat -> Z) (items : list product) :
  writable inventoryitem ->
  forall i upserted, respects R (upsert_items now i items upserted).
Proof.
  intros Hw. induction items as [|item items IH]; intros i upserted.
  - apply respects_ret.
  - cbn [upsert_items]. apply respects_bind; [by apply R_upsert|].
    intros _. apply IH.
Qed.

Lemma respects_register (salt : string) (u : User.t) :
  writable user -> respects R (register salt u).
Proof.
  intros Hw. unfold register. apply respects_bind; [apply respects_find_one|].
  intros existing. destruct (truthy existing); [apply respects_raise|].
  apply respects_bind; [by apply R_create|]. intros user_id.
  apply respects_bind; [apply respects_lift|]. intros o.
  apply respects_bind; [apply respects_find_one|]. intros [d|];
    [apply respects_lift | apply respects_raise].
Qed.

Lemma respects_login (now : Z) (username password : string) :
  respects R (login now username password).
Proof.
  unfold login. apply respects_bind.
  - unfold authenticate_user. apply respects_bind; [apply respects_find_one|].
    intros u. destruct (negb (truthy u)); [apply respects_ret|].
    destruct u as [d|]; [|apply respects_ret].
    destruct (default _ _); try apply respects_raise.
    destruct (negb _); apply respects_ret.
  - intros u. destruct (negb (truthy u)); [apply respects_raise|].
    destruct u as [d|]; [|apply respects_raise].
    destruct (d !! "_id"); [|apply respects_raise].
    apply respects_bind; [apply respects_lift|]. intros tok. apply respects_ret.
Qed.

Lemma respects_inventory_scrape (net : string -> fetched) (now : nat -> Z)
    (params : SupplierScrapeParams.t) (u : doc) :
  writable inventoryitem -> respects R (inventory_scrape net now params u).
Proof.
  intros Hw. unfold inventory_scrape.
  destruct (negb _); [apply respects_raise|].
  apply respects_bind.
  - apply respects_try_except.
    + destruct (net _) as [|code text]; [apply respects_raise|].
      destruct (negb _); [apply respects_raise | apply respects_lift].
    + intros [code detail|name]; apply respects_raise.
  - intros products. apply respects_bind; [by apply respects_upsert_items|].
    intros upserted. apply respects_ret.
Qed.

Lemma respects_my_stock (u : doc) : respects R (my_stock u).
Proof.
  unfold my_stock. destruct (negb _); [apply respects_raise|].
  apply respects_bind; [apply respects_lift|]. intros uid.
  apply respects_bind; [apply respects_find_all|]. intros items.
  apply respects_lift.
Qed.

Lemma respects_stock_overview (u : doc) : respects R (stock_overview u).
Proof.
  unfold stock_overview. destruct (negb _); [apply respects_raise|].
  apply respects_bind; [apply respects_find_all|]. intros rows.
  apply respects_ret.
Qed.

Lemma respects_update_stock (now : Z) (update : StockUpdate.t) (u : doc) :
  writable technicianstock -> respects R (update_stock now update u).
Proof.
  intros Hw. unfold update_stock. destruct (negb _); [apply respects_raise|].
  apply respects_bind; [apply respects_lift|]. intros uid.
  apply respects_bind; [by apply R_upsert|]. intros _. apply respects_ret.
Qed.

Lemma respects_optimoroute_webhook (now : Z) (payload : RouteCompletion.t) :
  writable workorder -> respects R (optimoroute_webhook now payload).
Proof.
  intros Hw. unfold optimoroute_webhook.
  apply respects_bind; [by apply R_upsert|]. intros _. apply respects_ret.
Qed.

(** Every request respects what the writes to all four collections
    respect. *)
Lemma respects_serve (r : request) (st : store) :
  (forall c, writable c) -> R st (serve r st).
Proof.
  intros Hw.
  destruct r as [salt u|now username password|t_auth a|t_auth a net now params
                |t_auth a|t_auth a now update|t_auth a|now payload]; cbn [serve].
  - by apply respects_register.
  - apply respects_login.
  - apply respects_with_current_user. intros u. apply respects_lift.
  - apply respects_with_current_user. intros u. by apply respects_inventory_scrape.
  - apply respects_with_current_user. intros u. apply respects_my_stock.
  - apply respects_with_current_user. intros u. by apply respects_update_stock.
  - apply respects_with_current_user. intros u. apply respects_stock_overview.
  - by apply respects_optimoroute_webhook.
Qed.

End Respects.

(** *** Collections a handler leaves alone *)

Lemma keeps_update_one_upsert (c c' : collection) (flt fields : doc) :
  c' <> c -> keeps c (update_one_upsert c' flt fields).
Proof.
  intros Hne st.
  destruct (update_one_upsert_spec c' flt fields st) as (st' & E & _ & _ & Hframe).
  rewrite E. by apply Hframe.
Qed.

Lemma keeps_create_document (c c' : collection) (data : doc) :
  c' <> c -> keeps c (create_document c' data).
Proof. intros Hne st. by destruct c, c'. Qed.

(** "Collection [c] is as before" is such a relation, the writes to the
    other collections allowed. *)
Lemma keeps_frame (c : collection) :
  frame (fun st st' => db c st' = db c st) (fun c' => c' <> c).
Proof.
  split.
  - done.
  - intros st1 st2 st3 H1 H2. by rewrite H2.
  - intros e st. by destruct c.
  - intros c' flt fields Hne. by apply keeps_update_one_upsert.
  - intros c' data Hne. by apply keeps_create_document.
Qed.

Lemma keeps_lift {A} (c : collection) (o : outcome A) : keeps c (lift o).
Proof. by intros st. Qed.

Lemma keeps_with_current_user {A} (c : collection) (now : Z)
    (authorization : option token) (handler : doc -> M A) :
  (forall u, keeps c (handler u)) ->
  keeps c (with_current_user now authorization handler).
Proof. apply (respects_with_current_user _ _ (keeps_frame c)). Qed.

Lemma keeps_register (c : collection) (salt : string) (u : User.t) :
  user <> c -> keeps c (register salt u).
Proof. apply (respects_register _ _ (keeps_frame c)). Qed.

Lemma keeps_login (c : collection) (now : Z) (username password : string) :
  keeps c (login now username password).
Proof. apply (respects_login _ _ (keeps_frame c)). Qed.

Lemma keeps_inventory_scrape (c : collection) (net : string -> fetched)
    (now : nat -> Z) (params : SupplierScrapeParams.t) (u : doc) :
  inventoryitem <> c -> keeps c (inventory_scrape net now params u).
Proof. apply (respects_inventory_scrape _ _ (keeps_frame c)). Qed.

Lemma keeps_my_stock (c : collection) (u : doc) : keeps c (my_stock u).
Proof. apply (respects_my_stock _ _ (keeps_frame c)). Qed.

Lemma keeps_stock_overview (c : collection) (u : doc) : keeps c (stock_overview u).
Proof. apply (respects_stock_overview _ _ (keeps_frame c)). Qed.

Lemma keeps_update_stock (c : collection) (now : Z) (update : StockUpdate.t)
    (u : doc) :
  technicianstock <> c -> keeps c (update_stock now update u).
Proof. apply (respects_update_stock _ _ (keeps_frame c)). Qed.

Lemma keeps_optimoroute_webhook (c : collection) (now : Z)
    (payload : RouteCompletion.t) :
  workorder <> c -> keeps c (optimoroute_webhook now payload).
Proof. apply (respects_optimoroute_webhook _ _ (keeps_frame c)). Qed.

(** ** Invariants of the stock collection *)











(** ** More on upserts: the shape of the result *)

Lemma upsert_coll_present (flt fields : doc) (o : oid) (l : list doc) :
  has flt l = true ->
  exists l1 d l2,
    l = l1 ++ d :: l2 /\ has flt l1 = false /\ matches flt d = true /\
    upsert_coll flt fields o l = l1 ++ apply_set fields d :: l2.
Proof.
  induction l as [|d l IH]; [done|]. intros Hh.
  destruct (matches flt d) eqn:Hm.
  - exists [], d, l. by rewrite upsert_coll_cons_match.
  - unfold has in Hh. cbn in Hh. rewrite Hm in Hh.
    destruct (IH Hh) as (l1 & d' & l2 & -> & Hl1 & Hd' & Hup).
    exists (d :: l1), d', l2. rewrite upsert_coll_cons_nomatch by done.
    rewrite Hup. repeat split; try done. unfold has. cbn. by rewrite Hm.
Qed.

Lemma has_app (flt : doc) (l1 l2 : list doc) :
  has flt (l1 ++ l2) = has flt l1 || has flt l2.
Proof. unfold has. apply existsb_app. Qed.

Lemma upsert_coll_app_absent (flt fields : doc) (o : oid) (l1 l2 : list doc) :
  has flt l1 = false ->
  upsert_coll flt fields o (l1 ++ l2) = l1 ++ upsert_coll flt fields o l2.
Proof.
  induction l1 as [|d l1 IH]; [done|]. unfold has. cbn.
  destruct (matches flt d) eqn:Hm; [done|]. intros Hh. cbn.
  rewrite upsert_coll_cons_nomatch by done. f_equal. by apply IH.
Qed.

(** Setting fields over a document that an upsert created gives the
    document the upsert would have created with those fields. *)
Lemma apply_set_new_doc (flt f1 f2 : doc) (o : oid) :
  (forall k, is_Some (f1 !! k) -> is_Some (f2 !! k)) ->
  f2 !! "_id" = None ->
  apply_set f2 (new_doc flt f1 o) = new_doc flt f2 o.
Proof.
  intros Hdom Hid. apply map_eq. intros k. unfold new_doc, apply_set.
  destruct (decide (k = "_id")) as [->|Hne].
  - rewrite lookup_union_r by done. by rewrite !lookup_insert_eq.
  - rewrite lookup_insert_ne by done. rewrite !lookup_union.
    rewrite lookup_insert_ne by done. rewrite lookup_union.
    destruct (f2 !! k) as [v2|] eqn:H2, (f1 !! k) as [v1|] eqn:H1, (flt !! k);
      try reflexivity; destruct (Hdom k) as [? ?]; eauto; congruence.
Qed.

(** Setting fields twice is setting the later ones, when they cover the
    earlier. *)
Lemma apply_set_absorb (f1 f2 d : doc) :
  (forall k, is_Some (f1 !! k) -> is_Some (f2 !! k)) ->
  apply_set f2 (apply_set f1 d) = apply_set f2 d.
Proof.
  intros Hdom. apply map_eq. intros k. unfold apply_set. rewrite !lookup_union.
  destruct (f2 !! k) as [v2|] eqn:H2, (f1 !! k) as [v1|] eqn:H1, (d !! k);
    try reflexivity; destruct (Hdom k) as [? ?]; eauto; congruence.
Qed.

Lemma count_upsert_self (flt fields : doc) (o : oid) (l : list doc) :
  flt !! "_id" = None ->
  (forall k, is_Some (flt !! k) -> fields !! k = None) ->
  count flt (upsert_coll flt fields o l) =
  if has flt l then count flt l else 1%nat.
Proof.
  intros Hid Hdisj.
  rewrite count_upsert_coll by (intros d; by apply matches_apply_set_disjoint).
  destruct (has flt l) eqn:Hh; [lia|].
  rewrite matches_new_doc; [apply has_count in Hh; lia|done|].
  intros k v Hk. rewrite Hdisj; eauto.
Qed.

(** ** The work order webhook *)

Lemma optimoroute_webhook_spec (now : Z) (payload : RouteCompletion.t)
    (st : store) :
  exists st',
    optimoroute_webhook now payload st = (Return {["status" := VStr "ok"]}, st') /\
    (workorders st', next_id st') =
      upsert_pure (order_filter (RouteCompletion.order_id payload))
        (order_fields (completed_at_or_now now payload))
        (workorders st, next_id st) /\
    oplog st' = Write workorder :: oplog st /\
    forall c, workorder <> c -> db c st' = db c st.
Proof.
  unfold optimoroute_webhook. unfold_M.
  destruct (update_one_upsert_spec workorder
              (order_filter (RouteCompletion.order_id payload))
              (order_fields (completed_at_or_now now payload)) st)
    as (st' & E & Hdb & Hlog & Hframe).
  exists st'. unfold order_filter, order_fields in *. by rewrite E.
Qed.

Lemma workorders_after_webhook (now : Z) (payload : RouteCompletion.t)
    (st : store) :
  workorders (optimoroute_webhook now payload st).2 =
  upsert_coll (order_filter (RouteCompletion.order_id payload))
    (order_fields (completed_at_or_now now payload))
    (oid_of_N (next_id st)) (workorders st).
Proof.
  destruct (optimoroute_webhook_spec now payload st) as (st' & E & Hdb & _).
  rewrite E. cbn [snd]. unfold upsert_pure in Hdb. by injection Hdb as -> _.
Qed.

Lemma order_fields_keep_filter (order_id : string) (k : string) (c : string) :
  is_Some (order_filter order_id !! k) -> order_fields c !! k = None.
Proof.
  unfold order_filter, order_fields.
  intros [v [<- _]%lookup_singleton_Some].
  rewrite lookup_insert_ne by done. by apply lookup_singleton_ne.
Qed.

Lemma order_fields_same_keys (c1 c2 : string) (k : string) :
  is_Some (order_fields c1 !! k) -> is_Some (order_fields c2 !! k).
Proof.
  unfold order_fields.
  intros [v [[<- _]|[_ [<- _]%lookup_singleton_Some]]%lookup_insert_Some].
  - rewrite lookup_insert_eq. eauto.
  - rewrite lookup_insert_ne by done. rewrite lookup_singleton_eq. eauto.
Qed.

(** C6 (as the code has it): the webhook always returns success; the record
    found under the order id then has status completed and, as
    completed_at, the supplied value when one is given and is not the empty
    string, else the server time in ISO format.  A first call for an
    unknown order id appends one record; a later call for that id rewrites
    that same record (same position, same [_id]) with its own completed_at,
    so the collection holds one record for the id. *)
Theorem C6_webhook_upserts_by_order_id (now1 now2 : Z)
    (p1 p2 : RouteCompletion.t) (st : store) :
  let flt := order_filter (RouteCompletion.order_id p1) in
  let o := oid_of_N (next_id st) in
  let r1 := optimoroute_webhook now1 p1 st in
  let r2 := optimoroute_webhook now2 p2 r1.2 in
  r1.1 = Return {["status" := VStr "ok"]} /\
  (exists row,
     List.find (matches flt) (workorders r1.2) = Some row /\
     row !! "status" = Some (VStr "completed") /\
     row !! "completed_at" = Some (VStr (completed_at_or_now now1 p1))) /\
  (forall s, RouteCompletion.completed_at p1 = Some s -> s <> "" ->
             completed_at_or_now now1 p1 = s) /\
  (RouteCompletion.completed_at p1 = None \/
   RouteCompletion.completed_at p1 = Some "" ->
   completed_at_or_now now1 p1 = isoformat now1) /\
  (has flt (workorders st) = false ->
   RouteCompletion.order_id p2 = RouteCompletion.order_id p1 ->
   workorders r1.2 =
     workorders st ++ [new_doc flt (order_fields (completed_at_or_now now1 p1)) o] /\
   workorders r2.2 =
     workorders st ++ [new_doc flt (order_fields (completed_at_or_now now2 p2)) o] /\
   count flt (workorders r2.2) = 1%nat).
Proof.
  intros flt o r1 r2. subst r1 r2.
  split; [|split; [|split; [|split]]].
  - by destruct (optimoroute_webhook_spec now1 p1 st) as (st' & -> & _).
  - rewrite workorders_after_webhook.
    destruct (find_upsert_coll flt (order_fields (completed_at_or_now now1 p1))
                (oid_of_N (next_id st)) (workorders st))
      as (row & Hfind & Hfields); try done.
    { intros k v Hk. rewrite (order_fields_keep_filter (RouteCompletion.order_id p1) k); eauto. }
    exists row. split; [done|]. split; apply Hfields; unfold order_fields.
    + apply lookup_insert_eq.
    + rewrite lookup_insert_ne by done. apply lookup_singleton_eq.
  - intros s Hs Hne. unfold completed_at_or_now. rewrite Hs.
    destruct (String.eqb_spec s ""); [done|done].
  - intros [Hs|Hs]; unfold completed_at_or_now; by rewrite Hs.
  - intros Hh Hid.
    assert (H1 : workorders (optimoroute_webhook now1 p1 st).2 =
                 workorders st ++
                 [new_doc flt (order_fields (completed_at_or_now now1 p1)) o]).
    { rewrite workorders_after_webhook. by apply upsert_coll_absent. }
    assert (H2 : workorders
                   (optimoroute_webhook now2 p2 (optimoroute_webhook now1 p1 st).2).2 =
                 workorders st ++
                 [new_doc flt (order_fields (completed_at_or_now now2 p2)) o]).
    { rewrite workorders_after_webhook, H1, Hid. fold flt.
      rewrite upsert_coll_app_absent by done. f_equal.
      rewrite upsert_coll_cons_match.
      - by rewrite apply_set_new_doc
          by first [apply order_fields_same_keys | done].
      - apply matches_new_doc; [done|].
        intros k v Hk.
        rewrite (order_fields_keep_filter (RouteCompletion.order_id p1) k); eauto. }
    split; [exact H1|]. split; [exact H2|]. rewrite H2.
    unfold count. rewrite List.filter_app, length_app.
    fold (count flt (workorders st)).
    apply has_count in Hh. rewrite Hh. cbn [List.filter].
    rewrite matches_new_doc; [reflexivity|reflexivity|].
    intros k v Hk. rewrite (order_fields_keep_filter (RouteCompletion.order_id p1) k); eauto.
Qed.

(** C10: the webhook writes [status] and [completed_at] under the key
    [order_id] and nothing else.  Its effect does not depend on the
    payload's [status] or [technician_email]; the stored status is
    "completed"; a record it creates has exactly the fields [_id],
    [order_id], [status] and [completed_at], hence no [technician_id],
    which [schemas.WorkOrder] requires; a record it updates keeps every
    other field; no other collection changes. *)
Theorem C10_webhook_writes_status_and_completed_at (now : Z)
    (payload : RouteCompletion.t) (st : store) :
  let order_id := RouteCompletion.order_id payload in
  let flt := order_filter order_id in
  let c := completed_at_or_now now payload in
  let r := optimoroute_webhook now payload st in
  (forall payload',
     RouteCompletion.order_id payload' = order_id ->
     RouteCompletion.completed_at payload' = RouteCompletion.completed_at payload ->
     optimoroute_webhook now payload' st = r) /\
  (has flt (workorders st) = false ->
   exists d,
     workorders r.2 = workorders st ++ [d] /\
     d !! "_id" = Some (VOid (oid_of_N (next_id st))) /\
     d !! "order_id" = Some (VStr order_id) /\
     d !! "status" = Some (VStr "completed") /\
     d !! "completed_at" = Some (VStr c) /\
     (forall k, k <> "_id" -> k <> "order_id" -> k <> "status" ->
                k <> "completed_at" -> d !! k = None) /\
     d !! "technician_id" = None /\
     ~ Forall (fun k => is_Some (d !! k)) WorkOrder_required) /\
  (has flt (workorders st) = true ->
   exists l1 d l2 d',
     workorders st = l1 ++ d :: l2 /\ has flt l1 = false /\
     matches flt d = true /\
     workorders r.2 = l1 ++ d' :: l2 /\
     d' !! "status" = Some (VStr "completed") /\
     d' !! "completed_at" = Some (VStr c) /\
     (forall k, k <> "status" -> k <> "completed_at" -> d' !! k = d !! k)) /\
  (forall c', workorder <> c' -> db c' r.2 = db c' st).
Proof.
  intros order_id flt c r. subst r.
  split; [|split; [|split]].
  - intros payload' Hid Hc. unfold optimoroute_webhook, completed_at_or_now.
    by rewrite Hid, Hc.
  - intros Hh. rewrite workorders_after_webhook.
    rewrite upsert_coll_absent by exact Hh. eexists. split; [reflexivity|].
    assert (Hother : forall k, k <> "_id" -> k <> "order_id" -> k <> "status" ->
              k <> "completed_at" ->
              new_doc flt (order_fields c) (oid_of_N (next_id st)) !! k = None).
    { intros k H1 H2 H3 H4. unfold new_doc, apply_set, order_fields, flt, order_filter.
      rewrite lookup_insert_ne by done. apply lookup_union_None. split.
      - rewrite lookup_insert_ne by done. by apply lookup_singleton_ne.
      - by apply lookup_singleton_ne. }
    split.
    { unfold new_doc. apply lookup_insert_eq. }
    split.
    { unfold new_doc, apply_set, order_fields, flt, order_filter.
      rewrite lookup_insert_ne by done. rewrite lookup_union_r.
      - apply lookup_singleton_eq.
      - rewrite lookup_insert_ne by done. by apply lookup_singleton_ne. }
    split.
    { unfold new_doc, apply_set, order_fields.
      rewrite lookup_insert_ne by done.
      apply lookup_union_Some_l. apply lookup_insert_eq. }
    split.
    { unfold new_doc, apply_set, order_fields.
      rewrite lookup_insert_ne by done.
      apply lookup_union_Some_l. rewrite lookup_insert_ne by done.
      apply lookup_singleton_eq. }
    split; [exact Hother|]. split; [by apply Hother|].
    intros Hall. unfold WorkOrder_required in Hall.
    apply Forall_cons in Hall as [_ Hall]. apply Forall_cons in Hall as [[v Hv] _].
    rewrite Hother in Hv; done.
  - intros Hh. rewrite workorders_after_webhook.
    destruct (upsert_coll_present flt (order_fields c) (oid_of_N (next_id st))
                (workorders st) Hh) as (l1 & d & l2 & Hl & Hl1 & Hd & Hup).
    exists l1, d, l2, (apply_set (order_fields c) d).
    split; [exact Hl|]. split; [exact Hl1|]. split; [exact Hd|].
    split; [exact Hup|]. unfold apply_set, order_fields. split.
    { apply lookup_union_Some_l. apply lookup_insert_eq. }
    split.
    { apply lookup_union_Some_l. rewrite lookup_insert_ne by done.
      apply lookup_singleton_eq. }
    intros k H1 H2. apply lookup_union_r.
    rewrite lookup_insert_ne by done. by apply lookup_singleton_ne.
  - intros c' Hne. by apply keeps_optimoroute_webhook.
Qed.

(** ** Upserts under one key: absorption and commutation *)

Lemma upsert_coll_present_any_id (flt fields : doc) (o o' : oid) (l : list doc) :
  has flt l = true -> upsert_coll flt fields o l = upsert_coll flt fields o' l.
Proof.
  intros Hh. destruct (update_first_Some flt fields l Hh) as [l' E].
  unfold upsert_coll. by rewrite E.
Qed.

Lemma has_upsert_self (flt fields : doc) (o : oid) (l : list doc) :
  (forall d, matches flt (apply_set fields d) = true) ->
  matches flt (new_doc flt fields o) = true ->
  has flt (upsert_coll flt fields o l) = true.
Proof.
  intros Hset Hnew. induction l as [|d l IH].
  - rewrite upsert_coll_nil. unfold has. cbn. by rewrite Hnew.
  - destruct (matches flt d) eqn:Hm.
    + rewrite upsert_coll_cons_match by done. unfold has. cbn. by rewrite Hset.
    + rewrite upsert_coll_cons_nomatch by done. unfold has in *. cbn.
      by rewrite Hm, IH.
Qed.

(** A second upsert under the same filter overrides the first. *)
Lemma upsert_coll_absorb (flt f1 f2 : doc) (o o' : oid) (l : list doc) :
  (forall d, matches flt (apply_set f1 d) = true) ->
  matches flt (new_doc flt f1 o) = true ->
  (forall k, is_Some (f1 !! k) -> is_Some (f2 !! k)) ->
  f2 !! "_id" = None ->
  upsert_coll flt f2 o' (upsert_coll flt f1 o l) = upsert_coll flt f2 o l.
Proof.
  intros Hset Hnew Hdom Hid. induction l as [|d l IH].
  - rewrite !upsert_coll_nil. rewrite upsert_coll_cons_match by done.
    by rewrite apply_set_new_doc.
  - destruct (matches flt d) eqn:Hm.
    + rewrite !(upsert_coll_cons_match _ _ _ d) by done.
      rewrite upsert_coll_cons_match by done. by rewrite apply_set_absorb.
    + rewrite !upsert_coll_cons_nomatch by done. by rewrite IH.
Qed.

Lemma upsert_pure_absorb (flt f1 f2 : doc) (s : list doc * N) :
  (forall d, matches flt (apply_set f1 d) = true) ->
  (forall o, matches flt (new_doc flt f1 o) = true) ->
  (forall k, is_Some (f1 !! k) -> is_Some (f2 !! k)) ->
  f2 !! "_id" = None ->
  upsert_pure flt f2 (upsert_pure flt f1 s) = upsert_pure flt f2 s.
Proof.
  intros Hset Hnew Hdom Hid. destruct s as [l k]. unfold upsert_pure. cbn [fst snd].
  rewrite upsert_coll_absorb by done.
  rewrite has_upsert_self by done. done.
Qed.

(** Upserts under filters that exclude each other commute, once the first
    filter has a match. *)
Lemma upsert_coll_comm (flt1 f1 flt2 f2 : doc) (o1 o1' o2 : oid) (l : list doc) :
  (forall d, matches flt1 d = true -> matches flt2 d = false) ->
  (forall d, matches flt1 d = true -> matches flt2 (apply_set f1 d) = false) ->
  (forall d, matches flt2 d = true -> matches flt1 (apply_set f2 d) = false) ->
  has flt1 l = true ->
  upsert_coll flt1 f1 o1 (upsert_coll flt2 f2 o2 l) =
    upsert_coll flt2 f2 o2 (upsert_coll flt1 f1 o1' l) /\
  has flt2 (upsert_coll flt1 f1 o1' l) = has flt2 l /\
  has flt1 (upsert_coll flt2 f2 o2 l) = true.
Proof.
  intros Hexcl H12 H21. induction l as [|d l IH]; [done|]. intros Hh.
  destruct (matches flt1 d) eqn:Hm1.
  - pose proof (Hexcl d Hm1) as Hm2.
    rewrite (upsert_coll_cons_nomatch flt2) by done.
    rewrite !(upsert_coll_cons_match flt1) by done.
    rewrite (upsert_coll_cons_nomatch flt2) by auto.
    split; [done|]. unfold has. cbn. rewrite Hm1, Hm2, H12 by done. done.
  - unfold has in Hh. cbn in Hh. rewrite Hm1 in Hh. cbn in Hh.
    destruct (matches flt2 d) eqn:Hm2.
    + rewrite (upsert_coll_cons_match flt2) by done.
      rewrite !(upsert_coll_cons_nomatch flt1) by auto.
      rewrite (upsert_coll_cons_match flt2) by done.
      rewrite (upsert_coll_present_any_id flt1 f1 o1 o1') by done.
      split; [done|]. unfold has. cbn. rewrite Hm2, H21 by done. done.
    + destruct (IH Hh) as (IH1 & IH2 & IH3).
      rewrite (upsert_coll_cons_nomatch flt2 f2 o2 d) by done.
      rewrite !(upsert_coll_cons_nomatch flt1) by done.
      rewrite (upsert_coll_cons_nomatch flt2) by done.
      rewrite IH1. split; [done|]. unfold has in *. cbn.
      by rewrite Hm1, Hm2, IH2, IH3.
Qed.

(** ** The catalog sync, timestamps left out *)

Lemma matches_sku_filter (s : string) (d : doc) :
  matches (sku_filter s) d = bool_decide (d !! "sku" = Some (VStr s)).
Proof. apply matches_singleton. Qed.

Lemma item_fields_sku (item : product) (d : doc) :
  apply_set (item_fields item) d !! "sku" = Some (VStr (p_sku item)).
Proof.
  unfold apply_set, item_fields. apply lookup_union_Some_l. apply lookup_insert_eq.
Qed.

Lemma item_fields_no_id (item : product) : item_fields item !! "_id" = None.
Proof.
  unfold item_fields. rewrite !lookup_insert_ne by done.
  by apply lookup_singleton_ne.
Qed.

Lemma item_fields_same_keys (x y : product) (k : string) :
  is_Some (item_fields x !! k) -> is_Some (item_fields y !! k).
Proof.
  unfold item_fields. intros [v Hv].
  repeat (apply lookup_insert_Some in Hv as [[<- _]|[? Hv]];
          [rewrite ?lookup_insert_ne by done; rewrite lookup_insert_eq; eauto|]).
  apply lookup_singleton_Some in Hv as [<- _].
  rewrite !lookup_insert_ne by done. rewrite lookup_singleton_eq. eauto.
Qed.

Lemma matches_item_set (item : product) (d : doc) :
  matches (sku_filter (p_sku item)) (apply_set (item_fields item) d) = true.
Proof.
  rewrite matches_sku_filter, item_fields_sku. by apply bool_decide_eq_true.
Qed.

Lemma matches_item_new (item : product) (o : oid) :
  matches (sku_filter (p_sku item))
    (new_doc (sku_filter (p_sku item)) (item_fields item) o) = true.
Proof.
  rewrite matches_sku_filter. apply bool_decide_eq_true. unfold new_doc.
  rewrite lookup_insert_ne by done. apply item_fields_sku.
Qed.

Lemma matches_other_item_set (s : string) (item : product) (d : doc) :
  s <> p_sku item ->
  matches (sku_filter s) (apply_set (item_fields item) d) = false.
Proof.
  intros Hne. rewrite matches_sku_filter, item_fields_sku.
  apply bool_decide_eq_false. congruence.
Qed.

Lemma sync_cons (x : product) (items : list product) (s : list doc * N) :
  sync (x :: items) s = sync items (sync_step x s).
Proof. done. Qed.

(** A later item with the same sku overrides an earlier one. *)
Lemma sync_step_absorb (x y : product) (s : list doc * N) :
  p_sku x = p_sku y -> sync_step x (sync_step y s) = sync_step x s.
Proof.
  intros Heq. unfold sync_step. rewrite Heq. apply upsert_pure_absorb.
  - apply matches_item_set.
  - apply matches_item_new.
  - apply item_fields_same_keys.
  - apply item_fields_no_id.
Qed.

Lemma sync_step_idem (x : product) (s : list doc * N) :
  sync_step x (sync_step x s) = sync_step x s.
Proof. by apply sync_step_absorb. Qed.

(** Items with different skus commute once the first one's sku is in the
    catalog, and such a sku stays in the catalog. *)
Lemma sync_step_comm (x y : product) (s : list doc * N) :
  p_sku x <> p_sku y ->
  has (sku_filter (p_sku x)) s.1 = true ->
  sync_step x (sync_step y s) = sync_step y (sync_step x s) /\
  has (sku_filter (p_sku x)) (sync_step y s).1 = true.
Proof.
  intros Hne Hh. destruct s as [l k]. unfold sync_step, upsert_pure. cbn [fst snd] in *.
  destruct (upsert_coll_comm (sku_filter (p_sku x)) (item_fields x)
              (sku_filter (p_sku y)) (item_fields y)
              (oid_of_N (if has (sku_filter (p_sku y)) l then k else N.succ k))
              (oid_of_N k) (oid_of_N k) l) as (Hc & Hh2 & Hh1).
  - intros d. rewrite !matches_sku_filter.
    intros H%bool_decide_eq_true. apply bool_decide_eq_false. congruence.
  - intros d _. by apply matches_other_item_set.
  - intros d _. by apply matches_other_item_set.
  - done.
  - rewrite Hh, Hh1, Hh2, Hc. done.
Qed.

Lemma sync_step_has (x y : product) (s : list doc * N) :
  has (sku_filter (p_sku x)) s.1 = true ->
  has (sku_filter (p_sku x)) (sync_step y s).1 = true.
Proof.
  intros Hh. destruct (decide (p_sku x = p_sku y)) as [Heq|Hne].
  - rewrite Heq. unfold sync_step, upsert_pure. cbn [fst].
    apply has_upsert_self; [apply matches_item_set | apply matches_item_new].
  - by apply sync_step_comm.
Qed.

Lemma sync_step_has_self (x : product) (s : list doc * N) :
  has (sku_filter (p_sku x)) (sync_step x s).1 = true.
Proof.
  unfold sync_step, upsert_pure. cbn [fst].
  apply has_upsert_self; [apply matches_item_set | apply matches_item_new].
Qed.

Lemma sync_has (x : product) (items : list product) (s : list doc * N) :
  has (sku_filter (p_sku x)) s.1 = true ->
  has (sku_filter (p_sku x)) (sync items s).1 = true.
Proof.
  revert s. induction items as [|y items IH]; intros s Hh; [done|].
  rewrite sync_cons. apply IH. by apply sync_step_has.
Qed.

(** An item whose sku occurs again later in the list leaves no trace. *)
Lemma sync_absorb (x : product) (items : list product) (s : list doc * N) :
  p_sku x ∈ List.map p_sku items ->
  has (sku_filter (p_sku x)) s.1 = true ->
  sync items (sync_step x s) = sync items s.
Proof.
  revert s. induction items as [|y items IH]; intros s Hin Hh.
  - by apply elem_of_nil in Hin.
  - rewrite !sync_cons. destruct (decide (p_sku y = p_sku x)) as [Heq|Hne].
    + by rewrite sync_step_absorb.
    + cbn in Hin. apply elem_of_cons in Hin as [Hin|Hin]; [congruence|].
      destruct (sync_step_comm x y s) as [Hc Hh']; [congruence|done|].
      rewrite <- Hc. by apply IH.
Qed.

(** An item whose sku does not occur later can be moved to the end. *)
Lemma sync_comm (x : product) (items : list product) (s : list doc * N) :
  p_sku x ∉ List.map p_sku items ->
  has (sku_filter (p_sku x)) s.1 = true ->
  sync_step x (sync items s) = sync items (sync_step x s).
Proof.
  revert s. induction items as [|y items IH]; intros s Hnin Hh; [done|].
  rewrite !sync_cons. cbn in Hnin. apply not_elem_of_cons in Hnin as [Hne Hnin].
  destruct (sync_step_comm x y s) as [Hc Hh']; [done|done|].
  rewrite <- Hc. by apply IH.
Qed.

(** Running the sync twice over the same items is running it once. *)
Lemma sync_idempotent (items : list product) (s : list doc * N) :
  sync items (sync items s) = sync items s.
Proof.
  revert s. induction items as [|x items IH]; intros s; [done|].
  rewrite !sync_cons.
  assert (Hh : has (sku_filter (p_sku x)) (sync items (sync_step x s)).1 = true).
  { apply sync_has. apply sync_step_has_self. }
  destruct (decide (p_sku x ∈ List.map p_sku items)) as [Hin|Hnin].
  - rewrite sync_absorb by done. apply IH.
  - rewrite (sync_comm x items (sync_step x s))
      by (done || apply sync_step_has_self).
    rewrite sync_step_idem. apply IH.
Qed.

(** ** The sync handler against the timestamp-free sync *)

Lemma matches_delete (flt d : doc) (k : string) :
  flt !! k = None -> matches flt (delete k d) = matches flt d.
Proof.
  intros Hk. apply eq_true_iff_eq. rewrite !matches_true.
  split; intros H k' v Hk'.
  - specialize (H k' v Hk'). by apply lookup_delete_Some in H as [_ H].
  - apply lookup_delete_Some. split; [congruence|by apply H].
Qed.

Lemma has_erase (flt : doc) (l : list doc) :
  flt !! "updated_at" = None -> has flt (erase l) = has flt l.
Proof.
  intros Hk. unfold has, erase. induction l as [|d l IH]; [done|]. cbn.
  by rewrite matches_delete, IH.
Qed.

Lemma erase_upsert_coll (flt fields : doc) (o : oid) (l : list doc) :
  flt !! "updated_at" = None ->
  erase (upsert_coll flt fields o l) =
  upsert_coll flt (delete "updated_at" fields) o (erase l).
Proof.
  intros Hk. induction l as [|d l IH].
  - rewrite !upsert_coll_nil. cbn. f_equal. unfold new_doc, apply_set.
    rewrite delete_insert_ne by done. rewrite delete_union.
    by rewrite (delete_id flt).
  - cbn [erase List.map]. destruct (matches flt d) eqn:Hm.
    + rewrite !upsert_coll_cons_match by (by rewrite ?matches_delete).
      cbn [erase List.map]. unfold apply_set. by rewrite delete_union.
    + rewrite !upsert_coll_cons_nomatch by (by rewrite ?matches_delete).
      cbn [erase List.map]. f_equal. apply IH.
Qed.

Lemma delete_item_fields_at (item : product) (t : Z) :
  delete "updated_at" (item_fields_at item t) = item_fields item.
Proof.
  unfold item_fields_at, item_fields.
  rewrite !delete_insert_ne by done. rewrite delete_singleton_eq.
  by rewrite insert_empty.
Qed.

(** One upsert of the loop, seen without timestamps, is one [sync_step]. *)
Lemma erase_upsert_item (item : product) (t : Z) (s : list doc * N) :
  let s' := upsert_pure (sku_filter (p_sku item)) (item_fields_at item t) s in
  (erase s'.1, s'.2) = sync_step item (erase s.1, s.2).
Proof.
  destruct s as [l k]. unfold sync_step, upsert_pure. cbn [fst snd].
  rewrite erase_upsert_coll by done. rewrite has_erase by done.
  by rewrite delete_item_fields_at.
Qed.

Lemma upsert_items_spec (now : nat -> Z) (items : list product) :
  forall (i : nat) (upserted : Z) (st : store),
  exists st',
    upsert_items now i items upserted st =
      (Return (upserted + Z.of_nat (length items)), st') /\
    (erase (inventoryitems st'), next_id st') =
      sync items (erase (inventoryitems st), next_id st) /\
    length (oplog st') = (length items + length (oplog st))%nat.
Proof.
  induction items as [|item items IH]; intros i upserted st.
  - exists st. cbn [upsert_items length]. change (Z.of_nat 0) with 0.
    by rewrite Z.add_0_r.
  - cbn [upsert_items]. unfold_M.
    destruct (update_one_upsert_spec inventoryitem (sku_filter (p_sku item))
                (item_fields_at item (now i)) st) as (st1 & E & Hdb & Hlog & _).
    unfold sku_filter, item_fields_at in E. rewrite E.
    destruct (IH (S i) (upserted + 1) st1) as (st' & E' & Hsync & Hlen).
    exists st'. rewrite E'.
    replace (upserted + 1 + Z.of_nat (length items))
      with (upserted + Z.of_nat (length (item :: items))) by (cbn [length]; lia).
    split; [done|]. split.
    + rewrite Hsync, sync_cons. f_equal.
      pose proof (erase_upsert_item item (now i) (inventoryitems st, next_id st)) as He.
      cbn [db] in Hdb. rewrite <- Hdb in He. exact He.
    + rewrite Hlen, Hlog. cbn [length]. lia.
Qed.

(** The extraction raises nothing but plain Python exceptions. *)
Lemma scan_keys_raises_Error (txt : string) (keys : list string)
    (sku : option string) (e : exn) :
  scan_keys txt keys sku = Raise e -> exists n, e = Error n.
Proof.
  induction keys as [|key keys IH]; cbn [scan_keys]; [discriminate|].
  destruct (contains _ _); [|done].
  destruct (1 <? _)%nat; [|done].
  destruct (split_ws _); [|discriminate]. intros [= <-]. eauto.
Qed.

Lemma parse_cards_raises_Error (cards : list card) :
  forall (items : list product) (e : exn),
  parse_cards cards items = Raise e -> exists n, e = Error n.
Proof.
  induction cards as [|c cards IH]; intros items e; cbn [parse_cards];
    [discriminate|].
  destruct (negb (nonempty _)).
  - destruct (scan_keys _ _ _) as [sku|e'] eqn:Hscan.
    + destruct sku as [k|]; [|apply IH]. destruct (_ && _); apply IH.
    + intros [= <-]. by eapply scan_keys_raises_Error.
  - destruct (first_attr _ _) as [k|]; [|apply IH]. destruct (_ && _); apply IH.
Qed.

Lemma parse_products_raises_Error (html : string) (e : exn) :
  parse_products_from_html html = Raise e -> exists n, e = Error n.
Proof.
  unfold parse_products_from_html. destruct (soup_select html) as [cards|].
  - apply parse_cards_raises_Error.
  - intros [= <-]. eauto.
Qed.

(** What [inventory_scrape] does for an office caller: it fails with 400
    and one of two fixed messages, leaving the store as it was, exactly
    when nothing was extracted; otherwise it answers the number of items
    and has run the sync over them. *)
Lemma inventory_scrape_spec (net : string -> fetched) (now : nat -> Z)
    (params : SupplierScrapeParams.t) (u : doc) (st : store) :
  u !! "role" = Some (VStr "office") ->
  match scraped net params with
  | None =>
      inventory_scrape net now params u st =
        (Raise (HTTPException HTTP_400_BAD_REQUEST (failure_detail net params)), st)
  | Some items =>
      exists st',
        inventory_scrape net now params u st =
          (Return {["status" := VStr "ok";
                    "upserted" := VInt (Z.of_nat (length items))]}, st') /\
        (erase (inventoryitems st'), next_id st') =
          sync items (erase (inventoryitems st), next_id st)
  end.
Proof.
  intros Hrole. unfold inventory_scrape, scraped, failure_detail. rewrite Hrole.
  rewrite bool_decide_true by done. cbn [negb]. unfold_M.
  destruct (net (SupplierScrapeParams.url params)) as [|code text].
  - reflexivity.
  - destruct (code =? 200) eqn:Hcode; cbn [negb].
    + destruct (parse_products_from_html text) as [products|[c d|n]] eqn:Hparse.
      * destruct (upsert_items_spec now
                    (slice_to (SupplierScrapeParams.max_items params) products)
                    0%nat 0 st) as (st' & E & Hsync & _).
        exists st'. rewrite E. by rewrite Z.add_0_l.
      * by destruct (parse_products_raises_Error text _ Hparse).
      * reflexivity.
    + reflexivity.
Qed.

Lemma count_erase (flt : doc) (l : list doc) :
  flt !! "updated_at" = None -> count flt (erase l) = count flt l.
Proof.
  intros Hk. unfold count, erase. induction l as [|d l IH]; [done|]. cbn.
  rewrite matches_delete by done. destruct (matches flt d); cbn; by rewrite IH.
Qed.

(** C5 (as the code has it): for an office caller, a fetch answered with
    status 200 whose page is extracted without error makes the request
    succeed; any other status (the other 2xx included), a network failure
    or an extraction that raises makes it fail with 400 and one of two
    fixed messages, and then the store is exactly as before: no
    inventoryitem document is written. *)
Theorem C5_scrape_failure_is_bad_request (net : string -> fetched)
    (now : nat -> Z) (params : SupplierScrapeParams.t) (u : doc) (st : store) :
  u !! "role" = Some (VStr "office") ->
  let r := inventory_scrape net now params u st in
  let fetch := net (SupplierScrapeParams.url params) in
  (forall text products,
     fetch = Response 200 text ->
     parse_products_from_html text = Return products ->
     r.1 = Return {["status" := VStr "ok";
                    "upserted" := VInt (Z.of_nat (length
                      (slice_to (SupplierScrapeParams.max_items params) products)))]}) /\
  ((exists code text, fetch = Response code text /\ code <> 200) \/
   fetch = RequestException \/
   (exists text e, fetch = Response 200 text /\
                   parse_products_from_html text = Raise e) ->
   exists detail,
     r = (Raise (HTTPException HTTP_400_BAD_REQUEST detail), st) /\
     (detail = "Cannot fetch supplier page" \/
      detail = "Failed to parse supplier page")).
Proof.
  intros Hrole r fetch. subst r fetch.
  pose proof (inventory_scrape_spec net now params u st Hrole) as Hspec.
  unfold scraped, failure_detail in Hspec. split.
  - intros text products Hfetch Hparse. rewrite Hfetch in Hspec.
    cbn [Z.eqb Pos.eqb] in Hspec. rewrite Hparse in Hspec.
    destruct Hspec as (st' & -> & _). done.
  - intros [(code & text & Hfetch & Hcode)|[Hfetch|(text & e & Hfetch & Hparse)]];
      rewrite Hfetch in Hspec.
    + apply Z.eqb_neq in Hcode. rewrite Hcode in Hspec. eauto.
    + eauto.
    + cbn [Z.eqb Pos.eqb] in Hspec. rewrite Hparse in Hspec. eauto.
Qed.

(** C4: running the scrape sync a second time against the same page
    content (same network answer, same parameters, same caller, any clock)
    leaves the catalog as the first run left it, up to the [updated_at]
    timestamps: the same documents in the same order with every other field
    equal, hence the same number of records for every sku, no new id
    generated, and the same answer. *)
Theorem C4_scrape_sync_idempotent (net : string -> fetched) (now1 now2 : nat -> Z)
    (params : SupplierScrapeParams.t) (u : doc) (st : store) :
  let r1 := inventory_scrape net now1 params u st in
  let r2 := inventory_scrape net now2 params u r1.2 in
  erase (inventoryitems r2.2) = erase (inventoryitems r1.2) /\
  length (inventoryitems r2.2) = length (inventoryitems r1.2) /\
  (forall sku, count (sku_filter sku) (inventoryitems r2.2) =
               count (sku_filter sku) (inventoryitems r1.2)) /\
  next_id r2.2 = next_id r1.2 /\
  r2.1 = r1.1.
Proof.
  intros r1 r2.
  assert (H : erase (inventoryitems r2.2) = erase (inventoryitems r1.2) /\
              next_id r2.2 = next_id r1.2 /\ r2.1 = r1.1).
  { subst r1 r2.
    destruct (decide (u !! "role" = Some (VStr "office"))) as [Hrole|Hrole].
    - pose proof (inventory_scrape_spec net now1 params u st Hrole) as H1.
      destruct (scraped net params) as [items|] eqn:Hs.
      + destruct H1 as (st1 & E1 & Hsync1). rewrite E1. cbn [fst snd].
        pose proof (inventory_scrape_spec net now2 params u st1 Hrole) as H2.
        rewrite Hs in H2. destruct H2 as (st2 & E2 & Hsync2).
        rewrite E2. cbn [fst snd].
        rewrite Hsync1, sync_idempotent, <- Hsync1 in Hsync2.
        injection Hsync2 as He Hn. done.
      + rewrite H1. cbn [fst snd].
        pose proof (inventory_scrape_spec net now2 params u st Hrole) as H2.
        rewrite Hs in H2. by rewrite H2.
    - unfold inventory_scrape. by rewrite !bool_decide_false. }
  destruct H as (He & Hn & Hr). split; [exact He|]. split; [|split; [|done]].
  - apply (f_equal length) in He. unfold erase in He.
    by rewrite !length_map in He.
  - intros sku. rewrite <- (count_erase _ (inventoryitems r2.2)) by done.
    rewrite <- (count_erase _ (inventoryitems r1.2)) by done. by rewrite He.
Qed.

(** ** Tokens: issue and validation *)

Lemma timegm_expiry (now : Z) :
  timegm (now + minutes ACCESS_TOKEN_EXPIRE_MINUTES) = timegm now + 86400.
Proof.
  unfold timegm, minutes, ACCESS_TOKEN_EXPIRE_MINUTES.
  replace (now + 60 * 24 * 60 * 1000000) with (now + 86400 * 1000000) by lia.
  by rewrite Z.div_add.
Qed.

Lemma create_access_token_issued (now : Z) (sub : string) :
  create_access_token now {["sub" := VStr sub]} None = Return (issued_token now sub).
Proof.
  unfold create_access_token, jwt_encode.
  rewrite (alter_insert_ne _ "nbf") by done. rewrite alter_singleton_ne by done.
  rewrite (alter_insert_ne _ "iat") by done. rewrite alter_singleton_ne by done.
  rewrite alter_insert_eq. rewrite timegm_expiry.
  rewrite bool_decide_true; [done|].
  apply map_Forall_insert_2; [done|]. by apply map_Forall_singleton.
Qed.

(** A token issued at [now] decodes to its claims until the second
    [timegm now + 86400] has passed. *)
Lemma jwt_decode_issued (now now' : Z) (sub : string) :
  timegm now' <= timegm now + 86400 ->
  jwt_decode (issued_token now sub) JWT_SECRET now' = Return (issued_claims now sub).
Proof.
  intros Hle. unfold jwt_decode, issued_token. rewrite !String.eqb_refl.
  cbn [negb]. unfold issued_claims.
  rewrite lookup_insert_eq. rewrite lookup_insert_ne by done.
  rewrite lookup_singleton_eq.
  assert (Hlt : (timegm now + 86400 <? timegm now') = false) by (apply Z.ltb_ge; lia).
  by rewrite Hlt.
Qed.



(** ** Login *)

Lemma truthy_found (flt : doc) (l : list doc) (d : doc) :
  flt <> ∅ -> List.find (matches flt) l = Some d -> truthy (Some d) = true.
Proof.
  intros Hne Hf. apply find_some in Hf as [_ Hm]. unfold truthy.
  rewrite bool_decide_false; [done|]. by eapply matches_nonempty.
Qed.

Lemma email_filter_nonempty (email : string) : email_filter email <> ∅.
Proof. apply map_non_empty_singleton. Qed.



Lemma login_correct (now : Z) (username password : string) (st : store)
    (d : doc) (h : string) (i : value) :
  List.find (matches (email_filter username)) (users st) = Some d ->
  default (VStr "") (d !! "password_hash") = VStr h ->
  pwd_verify password h = true ->
  d !! "_id" = Some i ->
  login now username password st =
    (Return {| Token.access_token := issued_token now (py_str i);
               Token.token_type := "bearer" |},
     log (Read user) st).
Proof.
  intros Hf Hh Hv Hid.
  pose proof (truthy_found _ _ _ (email_filter_nonempty username) Hf) as Ht.
  unfold login, authenticate_user, find_one, user_collection. unfold_M.
  cbn [db]. unfold email_filter in Hf. rewrite Hf, Ht. cbn [negb].
  rewrite Hh. unfold verify_password. rewrite Hv.
  cbn [negb]. rewrite Ht. cbn [negb]. rewrite Hid.
  by rewrite create_access_token_issued.
Qed.


(** ** Registration *)

(** The document [register] hands to the store. *)
Lemma register_taken (salt : string) (u : User.t) (st : store) :
  has (email_filter (User.email u)) (users st) = true ->
  register salt u st =
    (Raise (HTTPException HTTP_400_BAD_REQUEST "Email already registered"),
     log (Read user) st).
Proof.
  intros Hh. unfold register, find_one, user_collection. unfold_M. cbn [db].
  destruct (List.find (matches {["email" := VStr (User.email u)]}) (users st))
    as [d|] eqn:Hf.
  - by rewrite (truthy_found _ _ _ (email_filter_nonempty (User.email u)) Hf).
  - exfalso. unfold has in Hh. apply existsb_exists in Hh as (d & Hin & Hm).
    pose proof (find_none _ _ Hf d Hin) as Hn. unfold email_filter in Hm.
    congruence.
Qed.

Lemma Some_VOid_inj (a b : oid) : Some (VOid a) = Some (VOid b) -> a = b.
Proof. congruence. Qed.

Lemma find_generated_fresh (l : list doc) (next : N) :
  generated_ids l next -> (next < 16 ^ 24)%N ->
  List.find (matches {["_id" := VOid (oid_of_N next)]}) l = None.
Proof.
  intros Hgen Hnext. induction Hgen as [|d l (k & Hk & Hid) _ IH]; [done|].
  cbn [List.find]. rewrite matches_singleton, Hid.
  rewrite bool_decide_false; [done|].
  intros Heq. apply Some_VOid_inj, oid_of_N_inj in Heq; [lia|lia|done].
Qed.

Lemma find_app_None {A} (f : A -> bool) (l1 l2 : list A) :
  List.find f l1 = None -> List.find f (l1 ++ l2) = List.find f l2.
Proof.
  induction l1 as [|x l1 IH]; [done|]. cbn. destruct (f x); [done|by apply IH].
Qed.

Lemma register_fresh (salt : string) (u : User.t) (st : store) :
  generated_ids (users st) (next_id st) -> (next_id st < 16 ^ 24)%N ->
  has (email_filter (User.email u)) (users st) = false ->
  let o := oid_of_N (next_id st) in
  let d : doc :=
    <["_id" := VOid o]>
      (<["password_hash" := VStr (pwd_hash salt (User.password_hash u))]>
         (delete "password_hash" (User.model_dump u))) in
  exists st',
    register salt u st =
      (Return {| UserPublic.id := str_oid o; UserPublic.name := User.name u;
                 UserPublic.email := User.email u;
                 UserPublic.role := str_role (User.role u) |}, st') /\
    users st' = users st ++ [d] /\
    next_id st' = N.succ (next_id st) /\
    d !! "email" = Some (VStr (User.email u)).
Proof.
  intros Hgen Hnext Hh o d.
  assert (Hname : d !! "name" = Some (VStr (User.name u))).
  { subst d. unfold User.model_dump. rewrite !lookup_insert_ne by done.
    rewrite lookup_delete_ne by done. apply lookup_insert_eq. }
  assert (Hemail : d !! "email" = Some (VStr (User.email u))).
  { subst d. unfold User.model_dump. rewrite !lookup_insert_ne by done.
    rewrite lookup_delete_ne by done. rewrite lookup_insert_ne by done.
    apply lookup_insert_eq. }
  assert (Hrole : d !! "role" = Some (VStr (str_role (User.role u)))).
  { subst d. unfold User.model_dump. rewrite !lookup_insert_ne by done.
    rewrite lookup_delete_ne by done. rewrite !lookup_insert_ne by done.
    apply lookup_insert_eq. }
  assert (Hid : d !! "_id" = Some (VOid o)) by (subst d; apply lookup_insert_eq).
  unfold register, find_one, user_collection, create_document. unfold_M.
  cbn [db].
  assert (Hf : List.find (matches {["email" := VStr (User.email u)]}) (users st) = None).
  { destruct (List.find _ (users st)) as [d'|] eqn:Hf; [|done].
    apply find_some in Hf as [Hin Hm]. unfold has, email_filter in Hh.
    assert (existsb (matches {["email" := VStr (User.email u)]}) (users st) = true)
      by (apply existsb_exists; eauto).
    congruence. }
  rewrite Hf. cbn [truthy]. unfold get_password_hash.
  rewrite ObjectId_str_oid by apply oid_of_N_wf.
  cbn [db users log bump_id set_db].
  rewrite find_app_None by (by apply find_generated_fresh).
  change (next_id (log (Read user) st)) with (next_id st).
  fold o. fold d. cbn [List.find].
  rewrite matches_singleton, Hid. rewrite bool_decide_true by done.
  unfold to_public_user. rewrite Hid, Hname, Hemail, Hrole.
  cbn [from_option id py_str]. eexists. split; [reflexivity|]. done.
Qed.



(** * Further properties of the handlers *)

(** ** Authentication failures *)

Lemma jwt_decode_Return (alg : string) (payload : option doc) (signature key : string)
    (now : Z) (claims : doc) :
  jwt_decode (Jws alg payload signature) key now = Return claims ->
  alg = JWT_ALGORITHM /\ signature = hs256 key alg payload /\
  payload = Some claims /\
  (forall e, claims !! "exp" = Some (VInt e) -> timegm now <= e).
Proof.
  unfold jwt_decode.
  destruct (String.eqb_spec alg JWT_ALGORITHM) as [Halg|]; [|discriminate].
  destruct (String.eqb_spec signature (hs256 key alg payload)) as [Hsig|];
    [|discriminate].
  cbn [negb]. destruct payload as [c|]; [|discriminate].
  destruct (c !! "exp") as [[| |e| | |]|] eqn:Hexp; cbn [andb]; try discriminate.
  - destruct (e <? timegm now) eqn:Hlt; cbn [negb andb]; [discriminate|].
    destruct (match c !! "sub" with Some (VStr _) | None => true | _ => false end);
      [|discriminate].
    intros [= <-]. repeat split; try done.
    intros e' He'. rewrite Hexp in He'. injection He' as <-.
    by apply Z.ltb_ge in Hlt.
  - destruct (match c !! "sub" with Some (VStr _) | None => true | _ => false end);
      [|discriminate].
    intros [= <-]. repeat split; try done. intros e' He'. congruence.
Qed.

Lemma token_defects_answer_401 {A} (now : Z) (authorization : option token)
    (handler : doc -> M A) (st : store) :
  authorization = None \/
  (exists raw, authorization = Some (Unparsable raw)) \/
  (exists alg payload signature,
     authorization = Some (Jws alg payload signature) /\
     (alg <> JWT_ALGORITHM \/
      signature <> hs256 JWT_SECRET alg payload \/
      payload = None \/
      (exists claims e, payload = Some claims /\
         claims !! "exp" = Some (VInt e) /\ e < timegm now) \/
      (exists claims, payload = Some claims /\ claims !! "sub" = None) \/
      (exists claims s o, payload = Some claims /\
         claims !! "sub" = Some (VStr s) /\ ObjectId_of_str s = Some o /\
         List.find (matches {["_id" := VOid o]}) (users st) = None))) ->
  status (with_current_user now authorization handler st).1 = HTTP_401_UNAUTHORIZED /\
  forall c, db c (with_current_user now authorization handler st).2 = db c st.
Proof.
  intros Hcause. apply protected_route_unauthorized.
  destruct Hcause as [->|[[raw ->]|(alg & payload & signature & -> & Hcause)]];
    [done|done|].
  destruct (jwt_decode (Jws alg payload signature) JWT_SECRET now)
    as [claims|e] eqn:Hdec; [|done].
  apply jwt_decode_Return in Hdec as (Halg & Hsig & Hpay & Hexp).
  destruct Hcause as [H|[H|[H|[(c & e & Hc & He & Hlt)|[(c & Hc & Hs)|
                     (c & s & o & Hc & Hs & Ho & Hf)]]]]]; try congruence.
  - assert (c = claims) as -> by congruence. apply Hexp in He. lia.
  - assert (c = claims) as -> by congruence. by rewrite Hs.
  - assert (c = claims) as -> by congruence. rewrite Hs.
    exists o. split; [|done]. unfold ObjectId. by rewrite Ho.
Qed.

(** X1: on every bearer-protected route the request is answered 401, and no
    collection changes, when it carries no bearer token, the token is not a
    signed token, its algorithm is not HS256, its signature does not verify
    under the server secret, its payload is not a JSON object, its [exp]
    lies in the past, it has no subject, or its subject is a well-formed id
    under which no user is stored. *)
Theorem X1_token_defects_answer_401 {A} (now : Z) (authorization : option token)
    (handler : doc -> M A) (st : store) :
  authorization = None \/
  (exists raw, authorization = Some (Unparsable raw)) \/
  (exists alg payload signature,
     authorization = Some (Jws alg payload signature) /\
     (alg <> JWT_ALGORITHM \/
      signature <> hs256 JWT_SECRET alg payload \/
      payload = None \/
      (exists claims e, payload = Some claims /\
         claims !! "exp" = Some (VInt e) /\ e < timegm now) \/
      (exists claims, payload = Some claims /\ claims !! "sub" = None) \/
      (exists claims s o, payload = Some claims /\
         claims !! "sub" = Some (VStr s) /\ ObjectId_of_str s = Some o /\
         List.find (matches {["_id" := VOid o]}) (users st) = None))) ->
  status (with_current_user now authorization handler st).1 = HTTP_401_UNAUTHORIZED /\
  forall c, db c (with_current_user now authorization handler st).2 = db c st.
Proof. intros Hcause. by apply token_defects_answer_401. Qed.

Lemma login_Return (now : Z) (username password : string) (st st' : store)
    (t : Token.t) :
  login now username password st = (Return t, st') ->
  exists d i,
    List.find (matches (email_filter username)) (users st) = Some d /\
    d !! "_id" = Some i /\
    t = {| Token.access_token := issued_token now (py_str i);
           Token.token_type := "bearer" |}.
Proof.
  unfold login, authenticate_user, find_one, user_collection, email_filter.
  unfold_M. cbn [db].
  destruct (List.find _ (users st)) as [d|] eqn:Hf; [|discriminate].
  destruct (truthy (Some d)) eqn:Ht; cbn [negb]; [|discriminate].
  destruct (default (VStr "") (d !! "password_hash")); try discriminate.
  destruct (verify_password password s); cbn [negb]; [|discriminate].
  rewrite Ht. cbn [negb].
  destruct (d !! "_id") as [i|] eqn:Hid; [|discriminate].
  rewrite create_access_token_issued. intros [= <- _]. eauto.
Qed.

(** X2: a token [login] issued stops working once its 24 hours are over:
    presented at a clock reading whose second lies after the issue second
    plus 86400, every bearer-protected route answers 401 and changes no
    collection. *)
Theorem X2_issued_token_expires {A} (now now' : Z) (username password : string)
    (st st1 st' : store) (t : Token.t) (handler : doc -> M A) :
  login now username password st = (Return t, st1) ->
  timegm now + 86400 < timegm now' ->
  let r := with_current_user now' (Some (Token.access_token t)) handler st' in
  status r.1 = HTTP_401_UNAUTHORIZED /\ forall c, db c r.2 = db c st'.
Proof.
  intros Hlogin Hlate r. subst r.
  apply login_Return in Hlogin as (d & i & _ & _ & ->).
  cbn [Token.access_token]. apply token_defects_answer_401.
  right; right. unfold issued_token. do 3 eexists. split; [reflexivity|].
  do 3 right. left. exists (issued_claims now (py_str i)), (timegm now + 86400).
  split; [done|]. split; [|lia]. unfold issued_claims. apply lookup_insert_eq.
Qed.


(** ** Role checks of the writing handlers *)

(** X3: [update_stock] answers 403 to any caller whose role is not
    "technician" and [inventory_scrape] answers 403 to any caller whose role
    is not "office" (a missing role included); in both cases before anything
    else happens: the store, its operation log included, is exactly as
    before, and the answer does not depend on the network. *)
Theorem X3_writers_refuse_other_roles (now : Z) (update : StockUpdate.t)
    (net : string -> fetched) (clock : nat -> Z) (params : SupplierScrapeParams.t)
    (u : doc) (st : store) :
  (u !! "role" <> Some (VStr "technician") ->
   update_stock now update u st =
     (Raise (HTTPException HTTP_403_FORBIDDEN
               "Only technicians can update their stock"), st)) /\
  (u !! "role" <> Some (VStr "office") ->
   inventory_scrape net clock params u st =
     (Raise (HTTPException HTTP_403_FORBIDDEN "Only office can sync inventory"), st)).
Proof.
  split; intros Hrole.
  - unfold update_stock. by rewrite bool_decide_false.
  - unfold inventory_scrape. by rewrite bool_decide_false.
Qed.

(** ** The public view of a user *)

(** X4: the public view of a user document depends on its [_id], [name],
    [email] and [role] only, so neither the password hash nor any other
    stored field can reach a response; a document without [role] is shown
    as a technician; a document without [_id] raises instead of being
    shown. *)
Theorem X4_public_view_uses_four_fields (d d' : doc) :
  (d !! "_id" = d' !! "_id" -> d !! "name" = d' !! "name" ->
   d !! "email" = d' !! "email" -> d !! "role" = d' !! "role" ->
   to_public_user d = to_public_user d') /\
  (forall v, to_public_user (<["password_hash" := v]> d) = to_public_user d) /\
  (forall p, d !! "role" = None -> to_public_user d = Return p ->
             UserPublic.role p = "technician") /\
  (d !! "_id" = None -> to_public_user d = Raise (Error "KeyError")).
Proof.
  split; [|split; [|split]].
  - intros Hid Hname Hemail Hrole. unfold to_public_user.
    by rewrite Hid, Hname, Hemail, Hrole.
  - intros v. unfold to_public_user. by rewrite !lookup_insert_ne by done.
  - intros p Hrole. unfold to_public_user. rewrite Hrole. cbn [from_option id].
    destruct (d !! "_id"); [|discriminate].
    destruct (d !! "name") as [[]|]; try discriminate.
    destruct (d !! "email") as [[]|]; try discriminate.
    by intros [= <-].
  - intros Hid. unfold to_public_user. by rewrite Hid.
Qed.

(** ** Reading the stock *)

Lemma rename_ids_public (items : list doc) :
  Forall (fun d : doc => is_Some (d !! "_id")) items ->
  rename_ids items = Return (List.map public_row items).
Proof.
  induction 1 as [|d items [i Hi] _ IH]; [done|].
  cbn [rename_ids List.map]. rewrite Hi, IH. unfold public_row. by rewrite Hi.
Qed.

Lemma rename_ids_missing (items : list doc) :
  Exists (fun d : doc => d !! "_id" = None) items ->
  rename_ids items = Raise (Error "KeyError").
Proof.
  induction 1 as [d items Hd|d items _ IH]; cbn [rename_ids].
  - by rewrite Hd.
  - destruct (d !! "_id"); [by rewrite IH|done].
Qed.

Lemma my_stock_Return (u : doc) (i : value) (st : store) :
  u !! "role" = Some (VStr "technician") ->
  u !! "_id" = Some i ->
  let mine := List.filter (matches (owner_filter (py_str i))) (technicianstocks st) in
  all_have_id mine ->
  my_stock u st = (Return (List.map public_row mine), log (Read technicianstock) st).
Proof.
  intros Hrole Hid mine Hids.
  unfold my_stock, user_id_of, find_all. rewrite Hrole, Hid.
  rewrite bool_decide_true by done. cbn [negb]. unfold_M. cbn [db].
  fold (owner_filter (py_str i)). fold mine. by rewrite rename_ids_public.
Qed.

(** X5: for a technician, [my_stock] answers the stored rows whose
    [user_id] is the text of the caller's id, in stored order and no others,
    each with its [_id] replaced by the text of that id under [id]; it reads
    the stock collection once and writes nothing.  Should one of the
    caller's rows lack an [_id], the handler raises [KeyError] instead. *)
Theorem X5_my_stock_answers_own_rows (u : doc) (i : value) (st : store) :
  u !! "role" = Some (VStr "technician") ->
  u !! "_id" = Some i ->
  let mine := List.filter (matches (owner_filter (py_str i))) (technicianstocks st) in
  (Forall (fun d : doc => is_Some (d !! "_id")) mine ->
   my_stock u st = (Return (List.map public_row mine), log (Read technicianstock) st) /\
   Forall (fun r : doc => r !! "user_id" = Some (VStr (py_str i)) /\
                          r !! "_id" = None /\ is_Some (r !! "id"))
     (List.map public_row mine)) /\
  (Exists (fun d : doc => d !! "_id" = None) mine ->
   my_stock u st = (Raise (Error "KeyError"), log (Read technicianstock) st)).
Proof.
  intros Hrole Hid mine.
  split.
  - intros Hids. split.
    + by apply my_stock_Return.
    + apply Forall_map. apply Forall_forall. intros d Hd.
      subst mine. apply list_elem_of_In, filter_In in Hd as [_ Hm].
      unfold owner_filter in Hm. rewrite matches_singleton in Hm.
      apply bool_decide_eq_true in Hm. unfold public_row.
      rewrite lookup_insert_ne by done. rewrite lookup_delete_ne by done.
      split; [done|]. rewrite lookup_insert_ne by done.
      rewrite lookup_delete_eq. split; [done|]. rewrite lookup_insert_eq. eauto.
  - intros Hmissing. unfold my_stock, user_id_of, find_all. rewrite Hrole, Hid.
    rewrite bool_decide_true by done. cbn [negb]. unfold_M. cbn [db].
    fold (owner_filter (py_str i)). fold mine. by rewrite rename_ids_missing.
Qed.

(** X6: for an office caller, [stock_overview] answers one entry per stored
    stock row, in stored order, made of exactly the four fields [id],
    [user_id], [sku] and [quantity]; a row without quantity is shown with
    quantity 0 and a row without [_id] with the id "None"; it reads the
    stock collection once and writes nothing. *)
Theorem X6_stock_overview_lists_every_row (u : doc) (st : store) :
  u !! "role" = Some (VStr "office") ->
  stock_overview u st =
    (Return (List.map overview_row (technicianstocks st)),
     log (Read technicianstock) st) /\
  length (List.map overview_row (technicianstocks st)) =
    length (technicianstocks st) /\
  (forall r k, k <> "id" -> k <> "user_id" -> k <> "sku" -> k <> "quantity" ->
     overview_row r !! k = None) /\
  (forall r, r !! "quantity" = None -> overview_row r !! "quantity" = Some (VInt 0)) /\
  (forall r, r !! "_id" = None -> overview_row r !! "id" = Some (VStr "None")).
Proof.
  intros Hrole. split; [|split; [|split; [|split]]].
  - unfold stock_overview, find_all. rewrite Hrole.
    rewrite bool_decide_true by done. cbn [negb]. unfold_M. cbn [db].
    assert (Hall : List.filter (matches ∅) (technicianstocks st) = technicianstocks st).
    { induction (technicianstocks st) as [|d l IH]; [done|]. cbn.
      by rewrite matches_empty, IH. }
    by rewrite Hall.
  - apply length_map.
  - intros r k H1 H2 H3 H4. unfold overview_row.
    rewrite !lookup_insert_ne by done. by apply lookup_singleton_ne.
  - intros r Hq. unfold overview_row. rewrite !lookup_insert_ne by done.
    rewrite lookup_singleton_eq. by rewrite Hq.
  - intros r Hi. unfold overview_row. rewrite lookup_insert_eq. by rewrite Hi.
Qed.





(** ** The scraper *)

Lemma length_upto (n : nat) (s : string) : (String.length (upto n s) <= n)%nat.
Proof.
  unfold upto. revert s. induction n as [|n IH]; intros s.
  - by destruct s.
  - destruct s as [|c s]; cbn; [lia|]. specialize (IH s). lia.
Qed.

Lemma nonempty_Some (o : option string) :
  nonempty o = true -> exists s, o = Some s /\ s <> "".
Proof.
  destruct o as [s|]; [|discriminate]. cbn.
  destruct (String.eqb_spec s ""); [discriminate|]. eauto.
Qed.

Lemma scan_keys_Return (txt : string) (keys : list string) (sku sku' : option string) :
  scan_keys txt keys sku = Return sku' ->
  sku' = sku \/ exists w, sku' = Some (upto 64 w).
Proof.
  induction keys as [|key keys IH]; cbn [scan_keys]; [intros [= <-]; by left|].
  destruct (contains _ _); [|done].
  destruct (1 <? _)%nat; [|done].
  destruct (split_ws _) as [|w ws]; [discriminate|]. intros [= <-]. eauto.
Qed.

(** What one card contributes: nothing, or one product extracted from
    it. *)
Lemma parse_cards_cons (c : card) (cards : list card) (items : list product) :
  (exists e, parse_cards (c :: cards) items = Raise e /\ card_raises c) \/
  parse_cards (c :: cards) items = parse_cards cards items \/
  exists p, extracted_from c p /\
            parse_cards (c :: cards) items = parse_cards cards (items ++ [p]).
Proof.
  cbn [parse_cards]. fold sku_attrs. fold sku_keys.
  assert (Hlen := length_upto 200 (get_text "" c)).
  destruct (nonempty (first_attr c sku_attrs)) eqn:Hattr; cbn [negb].
  - destruct (nonempty_Some _ Hattr) as (k & Hk & Hne). rewrite Hk in *.
    destruct (String.eqb_spec (upto 200 (get_text "" c)) "") as [Hname|Hname];
      cbn [negb andb]; [by right; left|].
    rewrite Hattr. right; right. eexists. split; [|reflexivity].
    unfold extracted_from. cbn [p_name p_sku]. repeat split; try done. by left.
  - destruct (scan_keys _ _ _) as [sku|e] eqn:Hscan.
    + destruct sku as [k|]; [|by right; left].
      destruct (String.eqb_spec (upto 200 (get_text "" c)) "") as [Hname|Hname];
        cbn [negb andb]; [by right; left|].
      destruct (nonempty (Some k)) eqn:Hk; [|by right; left].
      right; right. eexists. split; [|reflexivity].
      unfold extracted_from. cbn [p_name p_sku].
      apply nonempty_Some in Hk as (k' & [= <-] & Hk).
      repeat split; try done. right. split; [done|].
      apply scan_keys_Return in Hscan as [Heq|(w & [= ->])].
      * rewrite <- Heq in Hattr. cbn in Hattr.
        destruct (String.eqb_spec k ""); [done|discriminate].
      * apply length_upto.
    + left. exists e. split; [done|]. split; [done|eauto].
Qed.



Lemma parse_cards_raises (cards : list card) :
  Exists card_raises cards ->
  forall items, exists e, parse_cards cards items = Raise e.
Proof.
  induction 1 as [c cards (Hattr & e & Hscan)|c cards _ IH]; intros items.
  - exists e. cbn [parse_cards]. fold sku_attrs. fold sku_keys.
    by rewrite Hattr, Hscan.
  - destruct (parse_cards_cons c cards items)
      as [(e & E & _)|[E|(p & _ & E)]]; rewrite E; eauto.
Qed.

(** X9: one card on which the keyword scan raises (a keyword with nothing
    but whitespace after it, on a card without usable data attribute) makes
    the whole sync fail, whatever the other cards hold: an office caller is
    answered 400 "Failed to parse supplier page" and the store is exactly
    as before. *)
Theorem X9_one_bad_card_fails_the_sync (net : string -> fetched) (now : nat -> Z)
    (params : SupplierScrapeParams.t) (u : doc) (st : store)
    (text : string) (cards : list card) :
  u !! "role" = Some (VStr "office") ->
  net (SupplierScrapeParams.url params) = Response 200 text ->
  soup_select text = Some cards ->
  Exists card_raises cards ->
  inventory_scrape net now params u st =
    (Raise (HTTPException HTTP_400_BAD_REQUEST "Failed to parse supplier page"), st).
Proof.
  intros Hrole Hnet Hsel Hbad.
  pose proof (inventory_scrape_spec net now params u st Hrole) as Hspec.
  unfold scraped, failure_detail in Hspec. rewrite Hnet in Hspec.
  cbn [Z.eqb Pos.eqb] in Hspec.
  destruct (parse_cards_raises cards Hbad []) as [e He].
  unfold parse_products_from_html in Hspec. rewrite Hsel, He in Hspec.
  exact Hspec.
Qed.


(** ** How many items a sync writes *)





(** ** What the catalog holds after a sync *)

Lemma last_name_None (items : list product) (sku : string) :
  last_name items sku = None <-> Forall (fun y => p_sku y <> sku) items.
Proof.
  induction items as [|x items IH]; [done|]. cbn [last_name].
  destruct (last_name items sku) as [n|].
  - split; [done|]. intros [_ H]%Forall_cons. by apply IH in H.
  - destruct (String.eqb_spec (p_sku x) sku) as [Heq|Hne].
    + split; [done|]. by intros [? _]%Forall_cons.
    + split; [|done]. intros _. constructor; [done|by apply IH].
Qed.

Lemma last_name_elem (items : list product) (x : product) :
  x ∈ items -> is_Some (last_name items (p_sku x)).
Proof.
  intros Hin. destruct (last_name items (p_sku x)) eqn:E; [eauto|].
  apply last_name_None in E. rewrite Forall_forall in E. by destruct (E x Hin).
Qed.

(** An upsert under another key does not move the first match of a key
    that is present. *)
Lemma find_upsert_other (flt' flt fields : doc) (o : oid) (l : list doc) :
  (forall d, matches flt d = true -> matches flt' d = false) ->
  (forall d, matches flt d = true -> matches flt' (apply_set fields d) = false) ->
  has flt' l = true ->
  List.find (matches flt') (upsert_coll flt fields o l) = List.find (matches flt') l.
Proof.
  intros Hexcl Hset. induction l as [|d l IH]; [done|]. intros Hh.
  destruct (matches flt' d) eqn:Hm'.
  - assert (Hm : matches flt d = false).
    { destruct (matches flt d) eqn:Hm; [|done]. apply Hexcl in Hm. congruence. }
    rewrite upsert_coll_cons_nomatch by done. cbn. by rewrite Hm'.
  - unfold has in Hh. cbn in Hh. rewrite Hm' in Hh. cbn in Hh.
    destruct (matches flt d) eqn:Hm.
    + rewrite upsert_coll_cons_match by done. cbn. by rewrite Hset, Hm'.
    + rewrite upsert_coll_cons_nomatch by done. cbn. rewrite Hm'. by apply IH.
Qed.

Lemma find_sync_step_other (x : product) (sku : string) (s : list doc * N) :
  p_sku x <> sku ->
  has (sku_filter sku) s.1 = true ->
  List.find (matches (sku_filter sku)) (sync_step x s).1 =
    List.find (matches (sku_filter sku)) s.1 /\
  has (sku_filter sku) (sync_step x s).1 = true.
Proof.
  intros Hne Hh. split.
  - unfold sync_step, upsert_pure. cbn [fst]. apply find_upsert_other; [| |done].
    + intros d. rewrite !matches_sku_filter.
      intros H%bool_decide_eq_true. apply bool_decide_eq_false. congruence.
    + intros d _. apply matches_other_item_set. congruence.
  - set (y := {| p_sku := sku; p_name := "" |}).
    apply (sync_step_has y x s). exact Hh.
Qed.

Lemma find_sync_others (items : list product) (sku : string) (s : list doc * N) :
  Forall (fun y => p_sku y <> sku) items ->
  has (sku_filter sku) s.1 = true ->
  List.find (matches (sku_filter sku)) (sync items s).1 =
    List.find (matches (sku_filter sku)) s.1.
Proof.
  revert s. induction items as [|x items IH]; intros s Hall Hh; [done|].
  apply Forall_cons in Hall as [Hne Hall]. rewrite sync_cons.
  destruct (find_sync_step_other x sku s Hne Hh) as [Hf Hh'].
  rewrite IH by done. exact Hf.
Qed.

Lemma find_sync_step_self (x : product) (s : list doc * N) :
  exists d,
    List.find (matches (sku_filter (p_sku x))) (sync_step x s).1 = Some d /\
    forall k v, item_fields x !! k = Some v -> d !! k = Some v.
Proof.
  unfold sync_step, upsert_pure. cbn [fst]. apply find_upsert_coll.
  - done.
  - apply item_fields_no_id.
  - intros k v Hk. unfold sku_filter in Hk.
    apply lookup_singleton_Some in Hk as [<- <-]. unfold item_fields.
    by rewrite lookup_insert_eq.
Qed.

(** After a sync the first record under a sku carries the fields of the
    last item with that sku. *)
Lemma find_sync (items : list product) (sku n : string) :
  forall s, last_name items sku = Some n ->
  exists d,
    List.find (matches (sku_filter sku)) (sync items s).1 = Some d /\
    forall k v,
      item_fields {| p_sku := sku; p_name := n |} !! k = Some v -> d !! k = Some v.
Proof.
  induction items as [|x items IH]; intros s Hlast; [done|].
  rewrite sync_cons. cbn [last_name] in Hlast.
  destruct (last_name items sku) as [n'|] eqn:Hrest.
  - injection Hlast as <-. by apply IH.
  - destruct (String.eqb_spec (p_sku x) sku) as [Heq|]; [|discriminate].
    injection Hlast as <-. apply last_name_None in Hrest.
    rewrite find_sync_others; [|done|].
    + rewrite <- Heq. destruct x as [xs xn]. apply find_sync_step_self.
    + rewrite <- Heq. apply sync_step_has_self.
Qed.

Lemma find_erase (flt : doc) (l : list doc) :
  flt !! "updated_at" = None ->
  List.find (matches flt) (erase l) = delete "updated_at" <$> List.find (matches flt) l.
Proof.
  intros Hk. unfold erase. induction l as [|d l IH]; [done|]. cbn.
  rewrite matches_delete by done. by destruct (matches flt d).
Qed.

(** X11: after a successful sync every processed sku is in the catalog, and
    the first record found under it has that sku, the fixed supplier,
    active = true and the name of the last processed product with that sku:
    among products sharing a sku the last one wins. *)
Theorem X11_catalog_holds_last_product_per_sku (net : string -> fetched)
    (now : nat -> Z) (params : SupplierScrapeParams.t) (u : doc) (st : store)
    (items : list product) :
  u !! "role" = Some (VStr "office") ->
  scraped net params = Some items ->
  let st' := (inventory_scrape net now params u st).2 in
  (forall x, x ∈ items -> is_Some (last_name items (p_sku x))) /\
  (forall sku n,
     last_name items sku = Some n ->
     exists d,
       List.find (matches (sku_filter sku)) (inventoryitems st') = Some d /\
       d !! "sku" = Some (VStr sku) /\
       d !! "name" = Some (VStr n) /\
       d !! "supplier" = Some (VStr "mijninstallatiepartner") /\
       d !! "active" = Some (VBool true)).
Proof.
  intros Hrole Hs st'. split; [apply last_name_elem|].
  intros sku n Hlast.
  pose proof (inventory_scrape_spec net now params u st Hrole) as Hspec.
  rewrite Hs in Hspec. destruct Hspec as (st1 & E & Hsync).
  subst st'. rewrite E. cbn [snd].
  destruct (find_sync items sku n (erase (inventoryitems st), next_id st) Hlast)
    as (d & Hfind & Hfields).
  rewrite <- Hsync in Hfind. cbn [fst] in Hfind.
  rewrite find_erase in Hfind by done.
  destruct (List.find (matches (sku_filter sku)) (inventoryitems st1)) as [d1|];
    [|discriminate].
  injection Hfind as <-. exists d1.
  assert (Hget : forall k v, k <> "updated_at" ->
            item_fields {| p_sku := sku; p_name := n |} !! k = Some v ->
            d1 !! k = Some v).
  { intros k v Hk Hv. apply Hfields in Hv.
    by rewrite lookup_delete_ne in Hv by done. }
  split; [done|]. unfold item_fields in Hget. cbn [p_sku p_name] in Hget.
  split; [apply Hget; [done|apply lookup_insert_eq]|].
  split; [apply Hget; [done|]; rewrite lookup_insert_ne by done;
          apply lookup_insert_eq|].
  split; [apply Hget; [done|]; rewrite !lookup_insert_ne by done;
          apply lookup_insert_eq|].
  apply Hget; [done|]. rewrite !lookup_insert_ne by done. apply lookup_singleton_eq.
Qed.


(** ** Invariants of the reachable stores *)

Lemma generated_ids_mono (l : list doc) (k k' : N) :
  (k <= k')%N -> generated_ids l k -> generated_ids l k'.
Proof.
  intros Hle Hgen. eapply Forall_impl; [exact Hgen|].
  intros d (j & Hj & Hd). exists j. split; [lia|done].
Qed.

Lemma generated_ids_upsert (flt fields : doc) (s : list doc * N) :
  fields !! "_id" = None ->
  generated_ids s.1 s.2 ->
  generated_ids (upsert_pure flt fields s).1 (upsert_pure flt fields s).2.
Proof.
  intros Hf Hgen. destruct s as [l k]. unfold upsert_pure. cbn [fst snd] in *.
  assert (Hk : (k <= if has flt l then k else N.succ k)%N)
    by (destruct (has flt l); lia).
  destruct (has flt l) eqn:Hh.
  - destruct (upsert_coll_present flt fields (oid_of_N k) l Hh)
      as (l1 & d & l2 & -> & _ & _ & ->).
    apply Forall_app in Hgen as [Hl1 Hgen]. apply Forall_cons in Hgen as [Hd Hl2].
    apply Forall_app. split; [done|]. constructor; [|done].
    destruct Hd as (j & Hj & Hd). exists j. split; [done|].
    unfold apply_set. by rewrite lookup_union_r.
  - rewrite upsert_coll_absent by done. apply Forall_app. split.
    + by apply (generated_ids_mono l k); [lia|].
    + constructor; [|done]. exists k. split; [lia|]. unfold new_doc.
      apply lookup_insert_eq.
Qed.

Lemma generated_ids_sync_at (now : nat -> Z) (items : list product) :
  forall i s, generated_ids s.1 s.2 ->
  generated_ids (sync_at now i items s).1 (sync_at now i items s).2.
Proof.
  induction items as [|item items IH]; intros i s Hgen; [done|].
  cbn [sync_at]. apply IH. apply generated_ids_upsert; [|done].
  unfold item_fields_at. rewrite !lookup_insert_ne by done.
  by apply lookup_singleton_ne.
Qed.

(** The loop of the sync handler is [sync_at] on the catalog and the
    counter. *)
Lemma upsert_items_sync_at (now : nat -> Z) (items : list product) :
  forall (i : nat) (upserted : Z) (st : store),
  (inventoryitems (upsert_items now i items upserted st).2,
   next_id (upsert_items now i items upserted st).2) =
  sync_at now i items (inventoryitems st, next_id st).
Proof.
  induction items as [|item items IH]; intros i upserted st; [done|].
  cbn [upsert_items sync_at]. unfold_M.
  destruct (update_one_upsert_spec inventoryitem (sku_filter (p_sku item))
              (item_fields_at item (now i)) st) as (st1 & E & Hdb & _).
  unfold sku_filter, item_fields_at in E. rewrite E.
  rewrite IH. cbn [db] in Hdb. by rewrite Hdb.
Qed.

(** The id counter never goes back. *)
Lemma grows_frame :
  frame (fun st st' => (next_id st <= next_id st')%N) (fun _ => True).
Proof.
  split.
  - intros st. lia.
  - intros st1 st2 st3 H1 H2. lia.
  - intros e st. cbn. lia.
  - intros c flt fields _ st.
    destruct (update_one_upsert_spec c flt fields st) as (st' & E & Hdb & _).
    rewrite E. cbn [snd]. unfold upsert_pure in Hdb. cbn [fst snd] in Hdb.
    injection Hdb as _ ->. destruct (has flt (db c st)); lia.
  - intros c data _ st. unfold create_document. cbn [snd].
    assert (H : forall l s, next_id (log (Write c) (bump_id (set_db c l s)))
                            = N.succ (next_id s)) by (by destruct c).
    rewrite H. lia.
Qed.

Lemma next_id_serve (r : request) (st : store) :
  (next_id st <= next_id (serve r st))%N.
Proof. by apply (respects_serve _ _ grows_frame). Qed.


(** A protected route either stops in the auth dependency, leaving every
    collection and the counter alone, or runs its handler on the store the
    dependency left. *)
Lemma with_current_user_cases {A} (now : Z) (authorization : option token)
    (handler : doc -> M A) (st : store) :
  (exists e st',
     with_current_user now authorization handler st = (Raise e, st') /\
     (forall c, db c st' = db c st) /\ next_id st' = next_id st) \/
  (exists u, is_Some (u !! "_id") /\
     with_current_user now authorization handler st =
       handler u (log (Read user) st)).
Proof.
  unfold with_current_user, oauth2_scheme.
  destruct authorization as [tok|]; unfold_M.
  - destruct (get_current_user_cases now tok st)
      as [E|[[n E]|[E|(u & o & E & _ & Hid)]]]; rewrite E.
    + left. by exists credentials_exception, st.
    + left. by exists (Error n), st.
    + left. exists credentials_exception, (log (Read user) st).
      split; [done|]. split; [by intros []|done].
    + right. exists u. split; [eauto|done].
  - left. by exists (HTTPException 401 "Not authenticated"), st.
Qed.

Lemma register_store (salt : string) (u : User.t) (st : store) :
  let e := User.email u in
  let st' := (register salt u st).2 in
  (users st' = users st /\ next_id st' = next_id st) \/
  (exists data : doc,
     has (email_filter e) (users st) = false /\
     data !! "email" = Some (VStr e) /\
     users st' = users st ++ [<["_id" := VOid (oid_of_N (next_id st))]> data] /\
     next_id st' = N.succ (next_id st)).
Proof.
  intros e st'. subst st'.
  destruct (has (email_filter e) (users st)) eqn:Hh.
  - left. by rewrite register_taken.
  - right.
    exists (<["password_hash" := VStr (get_password_hash salt (User.password_hash u))]>
              (delete "password_hash" (User.model_dump u))).
    split; [done|]. split.
    { rewrite lookup_insert_ne by done. rewrite lookup_delete_ne by done.
      unfold User.model_dump. rewrite lookup_insert_ne by done.
      apply lookup_insert_eq. }
    unfold register, find_one, user_collection, create_document. unfold_M.
    cbn [db].
    assert (Hf : List.find (matches {["email" := VStr (User.email u)]}) (users st)
                 = None).
    { destruct (List.find _ (users st)) as [d'|] eqn:Hf; [|done].
      apply find_some in Hf as [Hin Hm]. unfold has, email_filter in Hh.
      assert (existsb (matches {["email" := VStr (User.email u)]}) (users st) = true)
        by (apply existsb_exists; eauto).
      subst e. congruence. }
    rewrite Hf. cbn [truthy].
    rewrite ObjectId_str_oid by apply oid_of_N_wf.
    cbn [db users log bump_id set_db next_id].
    clear Hf. destruct (List.find _ _); split; reflexivity.
Qed.

Lemma serve_users_shape (r : request) (st : store) :
  users (serve r st) = users st \/
  exists (data : doc) e,
    has (email_filter e) (users st) = false /\
    data !! "email" = Some (VStr e) /\
    users (serve r st) = users st ++ [<["_id" := VOid (oid_of_N (next_id st))]> data] /\
    next_id (serve r st) = N.succ (next_id st).
Proof.
  destruct r as [salt u|now username password|t_auth a|t_auth a net now params
                |t_auth a|t_auth a now update|t_auth a|now payload]; cbn [serve].
  - destruct (register_store salt u st) as [[H _]|(data & H)]; [by left|].
    right. by exists data, (User.email u).
  - left. apply (keeps_login user).
  - left. apply (keeps_with_current_user user). intros u. apply keeps_lift.
  - left. apply (keeps_with_current_user user). intros u.
    by apply keeps_inventory_scrape.
  - left. apply (keeps_with_current_user user). intros u. apply keeps_my_stock.
  - left. apply (keeps_with_current_user user). intros u.
    by apply keeps_update_stock.
  - left. apply (keeps_with_current_user user). intros u.
    apply keeps_stock_overview.
  - left. by apply (keeps_optimoroute_webhook user).
Qed.

Lemma serve_workorders_shape (r : request) (st : store) :
  workorders (serve r st) = workorders st \/
  exists order_id c,
    (workorders (serve r st), next_id (serve r st)) =
    upsert_pure (order_filter order_id) (order_fields c) (workorders st, next_id st).
Proof.
  destruct r as [salt u|now username password|t_auth a|t_auth a net now params
                |t_auth a|t_auth a now update|t_auth a|now payload]; cbn [serve].
  - left. by apply (keeps_register workorder).
  - left. apply (keeps_login workorder).
  - left. apply (keeps_with_current_user workorder). intros u. apply keeps_lift.
  - left. apply (keeps_with_current_user workorder). intros u.
    by apply keeps_inventory_scrape.
  - left. apply (keeps_with_current_user workorder). intros u. apply keeps_my_stock.
  - left. apply (keeps_with_current_user workorder). intros u.
    by apply keeps_update_stock.
  - left. apply (keeps_with_current_user workorder). intros u.
    apply keeps_stock_overview.
  - right. destruct (optimoroute_webhook_spec now payload st) as (st' & E & Hdb & _).
    rewrite E. cbn [snd]. eauto.
Qed.

Lemma update_stock_shape (now : Z) (update : StockUpdate.t) (u : doc) (st : store) :
  let st' := (update_stock now update u st).2 in
  st' = st \/
  exists uid,
    (technicianstocks st', next_id st') =
    upsert_pure (stock_filter uid (StockUpdate.sku update))
      (stock_fields (StockUpdate.quantity update) now)
      (technicianstocks st, next_id st).
Proof.
  intros st'. subst st'.
  destruct (decide (u !! "role" = Some (VStr "technician"))) as [Hrole|Hrole].
  - destruct (u !! "_id") as [i|] eqn:Hid.
    + destruct (update_stock_spec now update u i st Hrole Hid)
        as (st' & E & Hdb & _).
      right. exists (py_str i). by rewrite E.
    + left. unfold update_stock, user_id_of. rewrite Hid.
      by destruct (negb _).
  - left. unfold update_stock. by rewrite bool_decide_false.
Qed.

Lemma serve_stocks_shape (r : request) (st : store) :
  technicianstocks (serve r st) = technicianstocks st \/
  exists uid sku q now,
    (technicianstocks (serve r st), next_id (serve r st)) =
    upsert_pure (stock_filter uid sku) (stock_fields q now)
      (technicianstocks st, next_id st).
Proof.
  destruct r as [salt u|now username password|t_auth a|t_auth a net now params
                |t_auth a|t_auth a now update|t_auth a|now payload]; cbn [serve].
  - left. by apply (keeps_register technicianstock).
  - left. apply (keeps_login technicianstock).
  - left. apply (keeps_with_current_user technicianstock). intros u.
    apply keeps_lift.
  - left. apply (keeps_with_current_user technicianstock). intros u.
    by apply keeps_inventory_scrape.
  - left. apply (keeps_with_current_user technicianstock). intros u.
    apply keeps_my_stock.
  - unfold route_update_stock.
    destruct (with_current_user_cases t_auth a (update_stock now update) st)
      as [(e & st' & E & Hdb & _)|(u & _ & E)]; rewrite E.
    + left. apply (Hdb technicianstock).
    + destruct (update_stock_shape now update u (log (Read user) st))
        as [H|(uid & H)].
      * left. by rewrite H.
      * right. exists uid, (StockUpdate.sku update), (StockUpdate.quantity update), now.
        exact H.
  - left. apply (keeps_with_current_user technicianstock). intros u.
    apply keeps_stock_overview.
  - left. by apply (keeps_optimoroute_webhook technicianstock).
Qed.

Lemma inventory_scrape_shape (net : string -> fetched) (now : nat -> Z)
    (params : SupplierScrapeParams.t) (u : doc) (st : store) :
  let st' := (inventory_scrape net now params u st).2 in
  st' = st \/
  exists items,
    (inventoryitems st', next_id st') =
    sync_at now 0 items (inventoryitems st, next_id st).
Proof.
  intros st'. subst st'. unfold inventory_scrape.
  destruct (negb _); [by left|]. unfold_M.
  destruct (net _) as [|code text]; [by left|].
  destruct (negb _); [by left|].
  destruct (parse_products_from_html text) as [products|[c d|n]]; [|by left..].
  right. exists (slice_to (SupplierScrapeParams.max_items params) products).
  rewrite <- upsert_items_sync_at with (upserted := 0).
  by destruct (upsert_items now 0 _ 0 st) as [[x|e] st'].
Qed.

Lemma serve_inventory_shape (r : request) (st : store) :
  inventoryitems (serve r st) = inventoryitems st \/
  exists now items,
    (inventoryitems (serve r st), next_id (serve r st)) =
    sync_at now 0 items (inventoryitems st, next_id st).
Proof.
  destruct r as [salt u|now username password|t_auth a|t_auth a net now params
                |t_auth a|t_auth a now update|t_auth a|now payload]; cbn [serve].
  - left. by apply (keeps_register inventoryitem).
  - left. apply (keeps_login inventoryitem).
  - left. apply (keeps_with_current_user inventoryitem). intros u. apply keeps_lift.
  - unfold route_inventory_scrape.
    destruct (with_current_user_cases t_auth a (inventory_scrape net now params) st)
      as [(e & st' & E & Hdb & _)|(u & _ & E)]; rewrite E.
    + left. apply (Hdb inventoryitem).
    + destruct (inventory_scrape_shape net now params u (log (Read user) st))
        as [H|(items & H)].
      * left. by rewrite H.
      * right. exists now, items. exact H.
  - left. apply (keeps_with_current_user inventoryitem). intros u.
    apply keeps_my_stock.
  - left. apply (keeps_with_current_user inventoryitem). intros u.
    by apply keeps_update_stock.
  - left. apply (keeps_with_current_user inventoryitem). intros u.
    apply keeps_stock_overview.
  - left. by apply (keeps_optimoroute_webhook inventoryitem).
Qed.


Lemma count_app (flt : doc) (l1 l2 : list doc) :
  count flt (l1 ++ l2) = (count flt l1 + count flt l2)%nat.
Proof. unfold count. by rewrite List.filter_app, length_app. Qed.

(** As [count_upsert_coll], asking only the documents the upsert can touch
    to keep their place under [flt']. *)
Lemma count_upsert_matched (flt' flt fields : doc) (o : oid) (l : list doc) :
  (forall d, matches flt d = true ->
             matches flt' (apply_set fields d) = matches flt' d) ->
  count flt' (upsert_coll flt fields o l) =
  (count flt' l +
   if has flt l then 0 else if matches flt' (new_doc flt fields o) then 1 else 0)%nat.
Proof.
  intros Hstable. unfold count, has. induction l as [|d l IH].
  - rewrite upsert_coll_nil. cbn.
    by destruct (matches flt' (new_doc flt fields o)).
  - destruct (matches flt d) eqn:Hm.
    + rewrite upsert_coll_cons_match by done. cbn. rewrite Hm, Hstable by done.
      cbn. destruct (matches flt' d); cbn; lia.
    + rewrite upsert_coll_cons_nomatch by done. cbn. rewrite Hm. cbn.
      destruct (matches flt' d); cbn; rewrite IH; lia.
Qed.

(** An upsert keyed by one text field keeps that field a key, when the
    fields it sets leave the key alone or repeat it. *)
Lemma unique_by_upsert_key (f k : string) (fields : doc) (o : oid) (l : list doc) :
  f <> "_id" ->
  fields !! f = None \/ fields !! f = Some (VStr k) ->
  unique_by (fun k' => {[f := VStr k']}) l ->
  unique_by (fun k' => {[f := VStr k']}) (upsert_coll {[f := VStr k]} fields o l).
Proof.
  intros Hf Hfields Huniq k'. rewrite count_upsert_matched.
  - destruct (has {[f := VStr k]} l) eqn:Hh.
    + specialize (Huniq k'). cbn beta in Huniq. lia.
    + destruct (matches {[f := VStr k']} (new_doc {[f := VStr k]} fields o)) eqn:Hm.
      * rewrite matches_singleton in Hm. apply bool_decide_eq_true in Hm.
        unfold new_doc, apply_set in Hm. rewrite lookup_insert_ne in Hm by done.
        assert (k' = k) as ->.
        { destruct Hfields as [Hn|Hs].
          - rewrite lookup_union_r in Hm by done.
            rewrite lookup_singleton_eq in Hm. congruence.
          - rewrite (lookup_union_Some_l _ _ _ _ Hs) in Hm. congruence. }
        apply has_count in Hh. lia.
      * specialize (Huniq k'). cbn beta in Huniq. lia.
  - intros d Hm. rewrite !matches_singleton in *. apply bool_decide_eq_true in Hm.
    unfold apply_set. destruct Hfields as [Hn|Hs].
    + by rewrite lookup_union_r.
    + rewrite (lookup_union_Some_l _ _ _ _ Hs). by rewrite Hm.
Qed.

Lemma unique_by_sync_at (now : nat -> Z) (items : list product) :
  forall i s, unique_by sku_filter s.1 ->
  unique_by sku_filter (sync_at now i items s).1.
Proof.
  induction items as [|item items IH]; intros i s Huniq; [done|].
  cbn [sync_at]. apply IH. unfold upsert_pure. cbn [fst].
  apply (unique_by_upsert_key "sku"); [done| |exact Huniq].
  right. unfold item_fields_at. apply lookup_insert_eq.
Qed.

(** A new document keeps a field a key when no stored one carries its
    value. *)
Lemma unique_by_append (f k : string) (d : doc) (l : list doc) :
  d !! f = Some (VStr k) ->
  has {[f := VStr k]} l = false ->
  unique_by (fun k' => {[f := VStr k']}) l ->
  unique_by (fun k' => {[f := VStr k']}) (l ++ [d]).
Proof.
  intros Hd Hh Huniq k'. rewrite count_app. unfold count at 2. cbn [List.filter].
  rewrite matches_singleton, Hd. case_bool_decide as Hk; cbn [length].
  - assert (k' = k) as -> by congruence. apply has_count in Hh. lia.
  - specialize (Huniq k'). cbn beta in Huniq. lia.
Qed.

(** The ids of every collection still come from the counter after a
    request. *)
Lemma generated_ids_serve (r : request) (st : store) :
  (forall c, generated_ids (db c st) (next_id st)) ->
  forall c, generated_ids (db c (serve r st)) (next_id (serve r st)).
Proof.
  intros Hgen c.
  assert (Hkeep : db c (serve r st) = db c st ->
                  generated_ids (db c (serve r st)) (next_id (serve r st))).
  { intros ->. apply (generated_ids_mono _ (next_id st)); [apply next_id_serve|done]. }
  destruct c; cbn [db] in *.
  - destruct (serve_users_shape r st) as [H|(data & e & _ & _ & -> & ->)]; [auto|].
    apply Forall_app. split.
    + apply (generated_ids_mono _ (next_id st)); [lia|apply (Hgen user)].
    + constructor; [|done]. exists (next_id st). split; [lia|].
      apply lookup_insert_eq.
  - destruct (serve_inventory_shape r st) as [H|(now & items & H)]; [auto|].
    pose proof (generated_ids_sync_at now items 0 (inventoryitems st, next_id st)
                  (Hgen inventoryitem)) as Hs.
    rewrite <- H in Hs. exact Hs.
  - destruct (serve_stocks_shape r st) as [H|(uid & sku & q & now & H)]; [auto|].
    pose proof (generated_ids_upsert (stock_filter uid sku) (stock_fields q now)
                  (technicianstocks st, next_id st)) as Hs.
    rewrite <- H in Hs. apply Hs; [|apply (Hgen technicianstock)].
    unfold stock_fields. rewrite lookup_insert_ne by done.
    by apply lookup_singleton_ne.
  - destruct (serve_workorders_shape r st) as [H|(order_id & c & H)]; [auto|].
    pose proof (generated_ids_upsert (order_filter order_id) (order_fields c)
                  (workorders st, next_id st)) as Hs.
    rewrite <- H in Hs. apply Hs; [|apply (Hgen workorder)].
    unfold order_fields. rewrite lookup_insert_ne by done.
    by apply lookup_singleton_ne.
Qed.

Lemma generated_ids_reachable (st : store) :
  reachable st -> forall c, generated_ids (db c st) (next_id st).
Proof.
  induction 1 as [|r st _ IH].
  - intros []; constructor.
  - by apply generated_ids_serve.
Qed.

Lemma generated_ids_have_id (l : list doc) (next : N) :
  generated_ids l next -> all_have_id l.
Proof.
  intros Hgen. eapply Forall_impl; [exact Hgen|].
  intros d (k & _ & Hd). rewrite Hd. eauto.
Qed.

(** X12: in every store the service can be in, starting from an empty
    database, every document of every collection carries an [_id], and it
    is one the id generator has handed out: no handler stores a document
    without an id or with an id of its own making. *)
Theorem X12_every_document_has_a_generated_id (st : store) (c : collection) :
  reachable st ->
  generated_ids (db c st) (next_id st) /\ all_have_id (db c st).
Proof.
  intros Hreach. pose proof (generated_ids_reachable st Hreach c) as Hgen.
  split; [exact Hgen|]. by apply (generated_ids_have_id _ (next_id st)).
Qed.

Lemma unique_keys_serve (r : request) (st : store) :
  unique_by email_filter (users st) /\
  unique_by sku_filter (inventoryitems st) /\
  unique_by order_filter (workorders st) ->
  unique_by email_filter (users (serve r st)) /\
  unique_by sku_filter (inventoryitems (serve r st)) /\
  unique_by order_filter (workorders (serve r st)).
Proof.
  intros (Hu & Hi & Hw). split; [|split].
  - destruct (serve_users_shape r st) as [->|(data & e & Hh & He & -> & _)]; [done|].
    apply (unique_by_append "email" e); [|exact Hh|exact Hu].
    by rewrite lookup_insert_ne.
  - destruct (serve_inventory_shape r st) as [->|(now & items & H)]; [done|].
    pose proof (unique_by_sync_at now items 0 (inventoryitems st, next_id st) Hi)
      as Hs.
    rewrite <- H in Hs. exact Hs.
  - destruct (serve_workorders_shape r st) as [->|(order_id & c & H)]; [done|].
    apply (f_equal fst) in H. cbn [fst upsert_pure] in H. rewrite H.
    apply (unique_by_upsert_key "order_id"); [done| |exact Hw].
    left. unfold order_fields. rewrite lookup_insert_ne by done.
    by apply lookup_singleton_ne.
Qed.

(** X13: in every store the service can be in, starting from an empty
    database and serving one request after the other, no two users share
    an email, no two catalog items share a sku and no two work orders
    share an order id. *)
Theorem X13_keys_stay_unique (st : store) :
  reachable st ->
  unique_by email_filter (users st) /\
  unique_by sku_filter (inventoryitems st) /\
  unique_by order_filter (workorders st).
Proof.
  induction 1 as [|r st _ IH].
  - repeat split; intros k; cbn; lia.
  - by apply unique_keys_serve.
Qed.


(** ** Registration, login and the current user, one after the other *)

Lemma get_current_user_found (now now' : Z) (o : oid) (st : store) (d : doc) :
  wf_oid o ->
  timegm now' <= timegm now + 86400 ->
  List.find (matches {["_id" := VOid o]}) (users st) = Some d ->
  get_current_user now' (issued_token now (str_oid o)) st =
    (Return d, log (Read user) st).
Proof.
  intros Hwf Hle Hf. unfold get_current_user. unfold_M.
  rewrite jwt_decode_issued by done. unfold issued_claims.
  rewrite lookup_insert_ne by done. rewrite lookup_singleton_eq.
  rewrite ObjectId_str_oid by done.
  unfold find_one, user_collection. cbn [db]. by rewrite Hf.
Qed.

Lemma to_public_user_new (u : User.t) (h : string) (o : oid) :
  to_public_user
    (<["_id" := VOid o]>
       (<["password_hash" := VStr h]> (delete "password_hash" (User.model_dump u)))) =
  Return {| UserPublic.id := str_oid o; UserPublic.name := User.name u;
            UserPublic.email := User.email u;
            UserPublic.role := str_role (User.role u) |}.
Proof.
  unfold to_public_user, User.model_dump. rewrite lookup_insert_eq.
  rewrite !(lookup_insert_ne _ "_id") by done.
  rewrite !(lookup_insert_ne _ "password_hash") by done.
  rewrite !lookup_delete_ne by done.
  rewrite lookup_insert_eq.
  rewrite (lookup_insert_ne _ "name" "email") by done. rewrite lookup_insert_eq.
  rewrite (lookup_insert_ne _ "name" "role") by done.
  rewrite (lookup_insert_ne _ "email" "role") by done. rewrite lookup_insert_eq.
  done.
Qed.

(** X14: a user who registers with an email no stored user has, then logs
    in with the same password, then asks who they are before the token
    expires, is answered the public view the registration answered: same
    id, name, email and role.  The stored ids are generated ones, the id
    generator is not exhausted, and the password hasher is asked only to
    verify what it has hashed. *)
Theorem X14_register_login_me_round_trip (salt : string) (u : User.t)
    (now now' : Z) (st : store) :
  generated_ids (users st) (next_id st) -> (next_id st < 16 ^ 24)%N ->
  has (email_filter (User.email u)) (users st) = false ->
  pwd_verify (User.password_hash u) (pwd_hash salt (User.password_hash u)) = true ->
  timegm now' <= timegm now + 86400 ->
  exists pub tok st1 st2 st3,
    register salt u st = (Return pub, st1) /\
    login now (User.email u) (User.password_hash u) st1 = (Return tok, st2) /\
    route_me now' (Some (Token.access_token tok)) st2 = (Return pub, st3) /\
    UserPublic.email pub = User.email u /\
    UserPublic.name pub = User.name u /\
    users st3 = users st1.
Proof.
  intros Hgen Hnext Hh Hv Hle.
  destruct (register_fresh salt u st Hgen Hnext Hh) as (st1 & E1 & Hus & _ & Hemail).
  set (o := oid_of_N (next_id st)) in *.
  set (d := <["_id" := VOid o]> _) in *.
  assert (Hid : d !! "_id" = Some (VOid o)) by apply lookup_insert_eq.
  assert (Hfe : List.find (matches (email_filter (User.email u))) (users st1) = Some d).
  { rewrite Hus. rewrite find_app_None.
    - cbn [List.find]. unfold email_filter. rewrite matches_singleton, Hemail.
      by rewrite bool_decide_true.
    - destruct (List.find _ (users st)) as [d'|] eqn:Hf; [|done].
      apply find_some in Hf as [Hin Hm]. unfold has in Hh.
      assert (existsb (matches (email_filter (User.email u))) (users st) = true)
        by (apply existsb_exists; eauto).
      congruence. }
  assert (Hfi : List.find (matches {["_id" := VOid o]}) (users st1) = Some d).
  { rewrite Hus. rewrite find_app_None by (by apply find_generated_fresh).
    cbn [List.find]. rewrite matches_singleton, Hid.
    by rewrite bool_decide_true. }
  assert (Hph : default (VStr "") (d !! "password_hash") =
                VStr (pwd_hash salt (User.password_hash u))).
  { subst d. rewrite lookup_insert_ne by done. by rewrite lookup_insert_eq. }
  pose proof (login_correct now (User.email u) (User.password_hash u) st1 d _
                (VOid o) Hfe Hph Hv Hid) as E2.
  eexists _, _, st1, _, _. split; [exact E1|]. split; [exact E2|].
  cbn [Token.access_token py_str].
  unfold route_me, with_current_user, oauth2_scheme, me. unfold_M.
  rewrite (get_current_user_found now now' o (log (Read user) st1) d);
    [|apply oid_of_N_wf|exact Hle|exact Hfi].
  subst d. rewrite to_public_user_new. done.
Qed.


(** ** Requests that fail *)

Lemma inventory_scrape_failed (net : string -> fetched) (now : nat -> Z)
    (params : SupplierScrapeParams.t) (u : doc) (st : store) :
  failed (inventory_scrape net now params u st) = true ->
  (inventory_scrape net now params u st).2 = st.
Proof.
  unfold inventory_scrape, failed.
  destruct (negb _); [done|]. unfold_M.
  destruct (net _) as [|code text]; [done|].
  destruct (negb _); [done|].
  destruct (parse_products_from_html text) as [products|[c d|n]]; [|done..].
  destruct (upsert_items_spec now
              (slice_to (SupplierScrapeParams.max_items params) products)
              0%nat 0 st) as (st' & E & _).
  rewrite E. cbn [fst]. discriminate.
Qed.

Lemma update_stock_failed (now : Z) (update : StockUpdate.t) (u : doc) (st : store) :
  failed (update_stock now update u st) = true ->
  (update_stock now update u st).2 = st.
Proof.
  destruct (decide (u !! "role" = Some (VStr "technician"))) as [Hrole|Hrole].
  - destruct (u !! "_id") as [i|] eqn:Hid.
    + destruct (update_stock_spec now update u i st Hrole Hid) as (st' & E & _).
      rewrite E. unfold failed. cbn [fst]. discriminate.
    + intros _. unfold update_stock, user_id_of. rewrite Hid.
      by destruct (negb _).
  - intros _. unfold update_stock. by rewrite bool_decide_false.
Qed.

(** What a handler that only reads leaves in place: every collection and
    the id counter. *)
Lemma reads_frame :
  frame (fun st st' => (forall c, db c st' = db c st) /\ next_id st' = next_id st)
        (fun _ => False).
Proof.
  split.
  - done.
  - intros st1 st2 st3 [H1 H1'] [H2 H2']. split; [|congruence].
    intros c. by rewrite H2.
  - intros e st. split; [by intros []|done].
  - by intros c flt fields [].
  - by intros c data [].
Qed.

(** X15: a request that is answered with an error has written nothing: in
    every store the service can be in (the id generator not exhausted),
    whichever request fails, with whatever status, leaves all four
    collections and the id counter as they were. *)
Theorem X15_failed_requests_write_nothing (r : request) (st : store) :
  reachable st -> (next_id st < 16 ^ 24)%N ->
  answer_fails r st = true ->
  (forall c, db c (serve r st) = db c st) /\ next_id (serve r st) = next_id st.
Proof.
  intros Hreach Hnext.
  destruct r as [salt u|now username password|t_auth a|t_auth a net now params
                |t_auth a|t_auth a now update|t_auth a|now payload];
    cbn [serve answer_fails]; intros Hfail.
  - destruct (has (email_filter (User.email u)) (users st)) eqn:Hh.
    + rewrite register_taken by done. split; [by intros []|done].
    + destruct (register_fresh salt u st (generated_ids_reachable st Hreach user)
                  Hnext Hh) as (st' & E & _).
      rewrite E in Hfail. discriminate.
  - apply (respects_login _ _ reads_frame).
  - apply (respects_with_current_user _ _ reads_frame). intros u.
    apply (respects_lift _ _ reads_frame).
  - unfold route_inventory_scrape in *.
    destruct (with_current_user_cases t_auth a (inventory_scrape net now params) st)
      as [(e & st' & E & Hdb & Hn)|(u & _ & E)]; rewrite E in *; [done|].
    rewrite inventory_scrape_failed by done. split; [by intros []|done].
  - apply (respects_with_current_user _ _ reads_frame). intros u.
    apply (respects_my_stock _ _ reads_frame).
  - unfold route_update_stock in *.
    destruct (with_current_user_cases t_auth a (update_stock now update) st)
      as [(e & st' & E & Hdb & Hn)|(u & _ & E)]; rewrite E in *; [done|].
    rewrite update_stock_failed by done. split; [by intros []|done].
  - apply (respects_with_current_user _ _ reads_frame). intros u.
    apply (respects_stock_overview _ _ reads_frame).
  - destruct (optimoroute_webhook_spec now payload st) as (st' & E & _).
    rewrite E in Hfail. discriminate.
Qed.


(** ** What the writes leave in place *)

Lemma ids_upsert_coll (flt fields : doc) (o : oid) (l : list doc) :
  fields !! "_id" = None ->
  ids (upsert_coll flt fields o l) =
  ids l ++ (if has flt l then [] else [Some (VOid o)]).
Proof.
  intros Hf. destruct (has flt l) eqn:Hh.
  - destruct (upsert_coll_present flt fields o l Hh)
      as (l1 & d & l2 & -> & _ & _ & ->).
    unfold ids. rewrite !map_app, app_nil_r. cbn [List.map].
    unfold apply_set. by rewrite lookup_union_r.
  - rewrite upsert_coll_absent by done. unfold ids. rewrite map_app.
    cbn [List.map]. unfold new_doc. by rewrite lookup_insert_eq.
Qed.

Lemma ids_sync_at (now : nat -> Z) (items : list product) :
  forall i s, exists new, ids (sync_at now i items s).1 = ids s.1 ++ new.
Proof.
  induction items as [|item items IH]; intros i s.
  - exists []. by rewrite app_nil_r.
  - cbn [sync_at].
    destruct (IH (S i) (upsert_pure (sku_filter (p_sku item))
                          (item_fields_at item (now i)) s)) as (new & ->).
    unfold upsert_pure. cbn [fst]. rewrite ids_upsert_coll.
    + rewrite <- app_assoc. eauto.
    + unfold item_fields_at. rewrite !lookup_insert_ne by done.
      by apply lookup_singleton_ne.
Qed.

(** X16: no request deletes or reorders anything: after any request, to
    any store, every collection holds the ids it held, in the same order,
    followed by those of the documents the request created; and the user
    collection holds the very documents it held, followed by at most one
    new user: a stored user is never changed. *)
Theorem X16_nothing_is_deleted (r : request) (st : store) :
  (forall c, exists new, ids (db c (serve r st)) = ids (db c st) ++ new) /\
  (exists new, users (serve r st) = users st ++ new /\ (length new <= 1)%nat).
Proof.
  split.
  - intros c.
    assert (Hkeep : db c (serve r st) = db c st ->
                    exists new, ids (db c (serve r st)) = ids (db c st) ++ new).
    { intros ->. exists []. by rewrite app_nil_r. }
    destruct c; cbn [db] in *.
    + destruct (serve_users_shape r st) as [H|(data & e & _ & _ & -> & _)]; [auto|].
      unfold ids. rewrite map_app. eauto.
    + destruct (serve_inventory_shape r st) as [H|(now & items & H)]; [auto|].
      destruct (ids_sync_at now items 0 (inventoryitems st, next_id st))
        as (new & Hn).
      rewrite <- H in Hn. eauto.
    + destruct (serve_stocks_shape r st) as [H|(uid & sku & q & now & H)]; [auto|].
      apply (f_equal fst) in H. cbn [fst upsert_pure] in H. rewrite H.
      rewrite ids_upsert_coll; [eauto|].
      unfold stock_fields. rewrite lookup_insert_ne by done.
      by apply lookup_singleton_ne.
    + destruct (serve_workorders_shape r st) as [H|(order_id & c & H)]; [auto|].
      apply (f_equal fst) in H. cbn [fst upsert_pure] in H. rewrite H.
      rewrite ids_upsert_coll; [eauto|].
      unfold order_fields. rewrite lookup_insert_ne by done.
      by apply lookup_singleton_ne.
  - destruct (serve_users_shape r st) as [->|(data & e & _ & _ & -> & _)].
    + exists []. rewrite app_nil_r. split; [done|]. cbn. lia.
    + eexists. split; [reflexivity|]. cbn. lia.
Qed.

Lemma others_upsert_coll (flt fields : doc) (o : oid) (l : list doc) :
  (forall d, matches flt d = true -> matches flt (apply_set fields d) = true) ->
  matches flt (new_doc flt fields o) = true ->
  others flt (upsert_coll flt fields o l) = others flt l.
Proof.
  intros Hset Hnew. unfold others. induction l as [|d l IH].
  - rewrite upsert_coll_nil. cbn. by rewrite Hnew.
  - destruct (matches flt d) eqn:Hm.
    + rewrite upsert_coll_cons_match by done. cbn. by rewrite Hm, Hset.
    + rewrite upsert_coll_cons_nomatch by done. cbn. by rewrite Hm, IH.
Qed.

Lemma length_upsert_coll (flt fields : doc) (o : oid) (l : list doc) :
  length (upsert_coll flt fields o l) =
  (length l + if has flt l then 0 else 1)%nat.
Proof.
  destruct (has flt l) eqn:Hh.
  - destruct (upsert_coll_present flt fields o l Hh)
      as (l1 & d & l2 & -> & _ & _ & ->).
    rewrite !length_app. cbn. lia.
  - rewrite upsert_coll_absent by done. by rewrite length_app.
Qed.


(** X18: the webhook touches the one work order it names: every work
    order with another order id is after the call exactly what it was; at
    most one record is added; users, catalog and stock are left alone. *)
Theorem X18_webhook_touches_one_order (now : Z) (payload : RouteCompletion.t)
    (st : store) :
  let st' := (optimoroute_webhook now payload st).2 in
  let flt := order_filter (RouteCompletion.order_id payload) in
  others flt (workorders st') = others flt (workorders st) /\
  length (workorders st') =
    (length (workorders st) + if has flt (workorders st) then 0 else 1)%nat /\
  forall c, c <> workorder -> db c st' = db c st.
Proof.
  intros st' flt. subst st' flt.
  destruct (optimoroute_webhook_spec now payload st) as (st' & E & Hdb & _ & Hframe).
  rewrite E. cbn [snd]. apply (f_equal fst) in Hdb.
  cbn [fst upsert_pure] in Hdb. rewrite Hdb. split; [|split].
  - apply others_upsert_coll.
    + intros d Hm. rewrite matches_apply_set_disjoint; [done|].
      intros k. apply (order_fields_keep_filter (RouteCompletion.order_id payload)).
    + apply matches_new_doc; [done|].
      intros k v Hk.
      rewrite (order_fields_keep_filter (RouteCompletion.order_id payload)) by eauto.
      done.
  - apply length_upsert_coll.
  - intros c Hne. by apply Hframe.
Qed.


(** ** The lifetime of a token *)


End App.


(** * The properties at concrete inputs *)

(** C1 at its failing input, with the stand-in environment: GET /auth/me
    with a signed token whose subject is "abc" is answered 500, not 401. *)
Lemma C1_malformed_subject_example :
  let payload := Some ({["sub" := VStr "abc"]} : doc) in
  let tok := Jws "HS256" payload (demo_hs256 demo_secret "HS256" payload) in
  status (route_me demo_secret demo_hs256 0 (Some tok) demo_store).1 = 500 /\
  500 <> HTTP_401_UNAUTHORIZED.
Proof. split; [vm_compute; reflexivity | discriminate]. Qed.




(** C4 on the stand-in environment: two syncs of a one-product page leave
    one catalog record. *)
Lemma C4_scrape_sync_idempotent_example :
  let net := fun _ : string => Response 200 "Pipe 15mm SKU 4711" in
  let r1 := inventory_scrape demo_soup_select net (fun _ => 1000000)
              demo_params demo_office demo_store in
  let r2 := inventory_scrape demo_soup_select net (fun _ => 2000000)
              demo_params demo_office r1.2 in
  length (inventoryitems r1.2) = 1%nat /\
  length (inventoryitems r2.2) = 1%nat /\
  erase (inventoryitems r2.2) = erase (inventoryitems r1.2).
Proof.
  cbv zeta. split; [vm_compute; reflexivity|]. split; [vm_compute; reflexivity|].
  apply (C4_scrape_sync_idempotent demo_soup_select).
Defined.

(** C5, counterexample to "any 2xx": a fetch answered 203 with a page that
    a 200 would have synced is refused with 400. *)
Lemma C5_status_203_is_refused :
  let page := "Pipe 15mm SKU 4711" in
  let scrape net :=
    inventory_scrape demo_soup_select net (fun _ => 1000000) demo_params
      demo_office demo_store in
  (scrape (fun _ => Response 203 page)).1 =
    Raise (HTTPException HTTP_400_BAD_REQUEST "Cannot fetch supplier page") /\
  (scrape (fun _ => Response 200 page)).1 =
    Return {["status" := VStr "ok"; "upserted" := VInt 1]}.
Proof. cbv zeta. split; vm_compute; reflexivity. Qed.

Lemma C5_scrape_failure_is_bad_request_witness :
  demo_office !! "role" = Some (VStr "office") /\
  exists detail,
    inventory_scrape demo_soup_select (fun _ => Response 503 "")
      (fun _ => 1000000) demo_params demo_office demo_store =
    (Raise (HTTPException HTTP_400_BAD_REQUEST detail), demo_store) /\
    (detail = "Cannot fetch supplier page" \/
     detail = "Failed to parse supplier page").
Proof.
  assert (Hrole : demo_office !! "role" = Some (VStr "office")) by reflexivity.
  split; [exact Hrole|].
  destruct (C5_scrape_failure_is_bad_request demo_soup_select
              (fun _ => Response 503 "") (fun _ => 1000000) demo_params
              demo_office demo_store Hrole) as [_ Hfail].
  apply Hfail. left. exists 503, "". split; [reflexivity | lia].
Defined.

(** C6, counterexample to "the supplied value when present": an empty
    completed_at is present, yet the server time is stored. *)
Lemma C6_empty_completed_at_is_replaced :
  let payload :=
    {| RouteCompletion.order_id := "WO-1";
       RouteCompletion.technician_email := None;
       RouteCompletion.status := "completed";
       RouteCompletion.completed_at := Some "" |} in
  let stored :=
    List.find (matches (order_filter "WO-1"))
      (workorders (optimoroute_webhook 1793793600123456 payload demo_store).2)
    ≫= (fun row : doc => row !! "completed_at") in
  RouteCompletion.completed_at payload = Some "" /\
  stored = Some (VStr "2026-11-04T12:00:00.123456+00:00") /\
  stored <> Some (VStr "").
Proof.
  cbv zeta. split; [reflexivity|].
  assert (H : List.find (matches (order_filter "WO-1"))
                (workorders (optimoroute_webhook 1793793600123456
                   {| RouteCompletion.order_id := "WO-1";
                      RouteCompletion.technician_email := None;
                      RouteCompletion.status := "completed";
                      RouteCompletion.completed_at := Some "" |} demo_store).2)
              ≫= (fun row : doc => row !! "completed_at")
              = Some (VStr "2026-11-04T12:00:00.123456+00:00"))
    by (vm_compute; reflexivity).
  rewrite H. split; [reflexivity | discriminate].
Qed.

Lemma C6_webhook_upserts_by_order_id_witness :
  let p1 :=
    {| RouteCompletion.order_id := "WO-1";
       RouteCompletion.technician_email := None;
       RouteCompletion.status := "completed";
       RouteCompletion.completed_at := Some "2026-11-04T09:00:00" |} in
  let p2 :=
    {| RouteCompletion.order_id := "WO-1";
       RouteCompletion.technician_email := Some "tess@example.com";
       RouteCompletion.status := "open";
       RouteCompletion.completed_at := Some "2026-11-04T10:30:00" |} in
  let r1 := optimoroute_webhook 1000000 p1 demo_store in
  let r2 := optimoroute_webhook 2000000 p2 r1.2 in
  has (order_filter "WO-1") (workorders demo_store) = false /\
  count (order_filter "WO-1") (workorders r2.2) = 1%nat.
Proof.
  cbv zeta.
  assert (Hh : has (order_filter "WO-1") (workorders demo_store) = false)
    by reflexivity.
  split; [exact Hh|].
  apply (C6_webhook_upserts_by_order_id 1000000 2000000
           {| RouteCompletion.order_id := "WO-1";
              RouteCompletion.technician_email := None;
              RouteCompletion.status := "completed";
              RouteCompletion.completed_at := Some "2026-11-04T09:00:00" |}
           {| RouteCompletion.order_id := "WO-1";
              RouteCompletion.technician_email := Some "tess@example.com";
              RouteCompletion.status := "open";
              RouteCompletion.completed_at := Some "2026-11-04T10:30:00" |}
           demo_store); [exact Hh | reflexivity].
Defined.



Lemma C9_wrong_role_forbidden_witness :
  get_current_user demo_secret demo_hs256 0 (demo_token_for demo_technician)
    demo_store = (Return demo_technician, log (Read user) demo_store) /\
  demo_technician !! "role" = Some (VStr "technician") /\
  exists detail,
    route_stock_overview demo_secret demo_hs256 0
      (Some (demo_token_for demo_technician)) demo_store =
    (Raise (HTTPException HTTP_403_FORBIDDEN detail), log (Read user) demo_store).
Proof.
  assert (Hu : get_current_user demo_secret demo_hs256 0
                 (demo_token_for demo_technician) demo_store
               = (Return demo_technician, log (Read user) demo_store))
    by (vm_compute; reflexivity).
  assert (Hrole : demo_technician !! "role" = Some (VStr "technician"))
    by reflexivity.
  split; [exact Hu|]. split; [exact Hrole|].
  destruct (C9_wrong_role_forbidden demo_secret demo_hs256 0
              (demo_token_for demo_technician) demo_store
              (log (Read user) demo_store) demo_technician Hu) as (Htech & _).
  exact (Htech Hrole).
Defined.

Lemma C10_webhook_writes_status_and_completed_at_witness :
  let payload :=
    {| RouteCompletion.order_id := "WO-1";
       RouteCompletion.technician_email := Some "tess@example.com";
       RouteCompletion.status := "open";
       RouteCompletion.completed_at := Some "2026-11-04T09:00:00" |} in
  has (order_filter "WO-1") (workorders demo_store) = false /\
  exists d,
    workorders (optimoroute_webhook 1000000 payload demo_store).2 = [d] /\
    d !! "status" = Some (VStr "completed") /\
    d !! "technician_id" = None.
Proof.
  cbv zeta.
  assert (Hh : has (order_filter "WO-1") (workorders demo_store) = false)
    by reflexivity.
  split; [exact Hh|].
  destruct (C10_webhook_writes_status_and_completed_at 1000000
              {| RouteCompletion.order_id := "WO-1";
                 RouteCompletion.technician_email := Some "tess@example.com";
                 RouteCompletion.status := "open";
                 RouteCompletion.completed_at := Some "2026-11-04T09:00:00" |}
              demo_store) as (_ & Hnew & _).
  destruct (Hnew Hh) as (d & Hd & _ & _ & Hstatus & _ & _ & Htech & _).
  exists d. split; [exact Hd|]. split; [exact Hstatus | exact Htech].
Defined.

(** ** Further properties at concrete inputs *)

(** X1 at a token with a forged signature: GET /auth/me answers 401 and
    changes nothing. *)
Lemma X1_token_defects_answer_401_witness :
  let tok :=
    Jws "HS256" (Some ({["sub" := VStr "000000000000000000000000"]} : doc))
      "forged" in
  status (route_me demo_secret demo_hs256 0 (Some tok) demo_store).1
    = HTTP_401_UNAUTHORIZED /\
  forall c, db c (route_me demo_secret demo_hs256 0 (Some tok) demo_store).2
            = db c demo_store.
Proof.
  cbv zeta.
  apply (X1_token_defects_answer_401 demo_secret demo_hs256 0 _ me demo_store).
  right; right. do 3 eexists. split; [reflexivity|].
  right; left. vm_compute. discriminate.
Defined.

(** X2 on the stand-in environment: the token Tess is given at second 1 is
    refused at second 86402. *)
Lemma X2_issued_token_expires_witness :
  let r := login demo_secret demo_hs256 demo_pwd_verify 1000000
             "tess@example.com" "spanner" demo_store in
  exists t,
    r.1 = Return t /\
    status (route_me demo_secret demo_hs256 86402000000
              (Some (Token.access_token t)) demo_store).1 = HTTP_401_UNAUTHORIZED.
Proof.
  cbv zeta.
  destruct (login demo_secret demo_hs256 demo_pwd_verify 1000000
              "tess@example.com" "spanner" demo_store) as [[t|e] st1] eqn:E.
  - exists t. split; [reflexivity|].
    apply (X2_issued_token_expires demo_secret demo_hs256 demo_pwd_verify
             1000000 86402000000 "tess@example.com" "spanner" demo_store st1
             demo_store t me E).
    vm_compute. reflexivity.
  - exfalso. vm_compute in E. discriminate.
Defined.

(** X5 on the stand-in environment: after one update Tess is answered her
    one row, under [id]. *)
Lemma X5_my_stock_answers_own_rows_witness :
  let st := (update_stock 1000000
               {| StockUpdate.sku := "X"; StockUpdate.quantity := 5 |}
               demo_technician demo_store).2 in
  demo_technician !! "role" = Some (VStr "technician") /\
  demo_technician !! "_id" = Some (VOid (oid_of_N 0)) /\
  exists rows,
    my_stock demo_technician st = (Return rows, log (Read technicianstock) st) /\
    Forall (fun r : doc =>
              r !! "user_id" = Some (VStr "000000000000000000000000") /\
              r !! "_id" = None /\ is_Some (r !! "id")) rows.
Proof.
  cbv zeta.
  assert (Hrole : demo_technician !! "role" = Some (VStr "technician"))
    by reflexivity.
  assert (Hid : demo_technician !! "_id" = Some (VOid (oid_of_N 0)))
    by reflexivity.
  split; [exact Hrole|]. split; [exact Hid|].
  destruct (X5_my_stock_answers_own_rows demo_technician (VOid (oid_of_N 0))
              (update_stock 1000000
                 {| StockUpdate.sku := "X"; StockUpdate.quantity := 5 |}
                 demo_technician demo_store).2 Hrole Hid) as [Hok _].
  eexists. apply Hok.
  vm_compute. repeat constructor. eexists. reflexivity.
Defined.

(** X6 on the stand-in environment: Olaf is answered the one row there
    is. *)
Lemma X6_stock_overview_lists_every_row_witness :
  let st := (update_stock 1000000
               {| StockUpdate.sku := "X"; StockUpdate.quantity := 5 |}
               demo_technician demo_store).2 in
  demo_office !! "role" = Some (VStr "office") /\
  stock_overview demo_office st =
    (Return (List.map overview_row (technicianstocks st)),
     log (Read technicianstock) st) /\
  length (List.map overview_row (technicianstocks st)) = 1%nat.
Proof.
  cbv zeta.
  assert (Hrole : demo_office !! "role" = Some (VStr "office")) by reflexivity.
  split; [exact Hrole|].
  destruct (X6_stock_overview_lists_every_row demo_office
              (update_stock 1000000
                 {| StockUpdate.sku := "X"; StockUpdate.quantity := 5 |}
                 demo_technician demo_store).2 Hrole) as (Hr & Hlen & _).
  split; [exact Hr|]. rewrite Hlen. vm_compute. reflexivity.
Defined.



(** X9 on the stand-in environment: a card whose text ends in the keyword
    makes the sync answer 400 and write nothing. *)
Lemma X9_one_bad_card_fails_the_sync_witness :
  let net := fun _ : string => Response 200 "Pipe SKU" in
  demo_office !! "role" = Some (VStr "office") /\
  Exists card_raises [{| strings := ["Pipe SKU"]; attrs := ∅ |}] /\
  inventory_scrape demo_soup_select net (fun _ => 1000000) demo_params
    demo_office demo_store =
  (Raise (HTTPException HTTP_400_BAD_REQUEST "Failed to parse supplier page"),
   demo_store).
Proof.
  cbv zeta.
  assert (Hrole : demo_office !! "role" = Some (VStr "office")) by reflexivity.
  assert (Hbad : Exists card_raises [{| strings := ["Pipe SKU"]; attrs := ∅ |}]).
  { apply Exists_cons_hd. split; [reflexivity|].
    eexists. vm_compute. reflexivity. }
  split; [exact Hrole|]. split; [exact Hbad|].
  exact (X9_one_bad_card_fails_the_sync demo_soup_select
           (fun _ => Response 200 "Pipe SKU") (fun _ => 1000000) demo_params
           demo_office demo_store "Pipe SKU" _ Hrole eq_refl eq_refl Hbad).
Defined.


(** X11 on the stand-in environment: after the sync the catalog holds the
    product of the page under its sku. *)
Lemma X11_catalog_holds_last_product_per_sku_witness :
  let net := fun _ : string => Response 200 "Pipe 15mm SKU 4711" in
  let st' := (inventory_scrape demo_soup_select net (fun _ => 1000000)
                demo_params demo_office demo_store).2 in
  demo_office !! "role" = Some (VStr "office") /\
  scraped demo_soup_select net demo_params =
    Some [{| p_sku := "4711"; p_name := "Pipe 15mm SKU 4711" |}] /\
  exists d,
    List.find (matches (sku_filter "4711")) (inventoryitems st') = Some d /\
    d !! "name" = Some (VStr "Pipe 15mm SKU 4711") /\
    d !! "active" = Some (VBool true).
Proof.
  cbv zeta.
  assert (Hrole : demo_office !! "role" = Some (VStr "office")) by reflexivity.
  assert (Hs : scraped demo_soup_select
                 (fun _ => Response 200 "Pipe 15mm SKU 4711") demo_params
               = Some [{| p_sku := "4711"; p_name := "Pipe 15mm SKU 4711" |}])
    by (vm_compute; reflexivity).
  split; [exact Hrole|]. split; [exact Hs|].
  destruct (X11_catalog_holds_last_product_per_sku demo_soup_select
              (fun _ => Response 200 "Pipe 15mm SKU 4711") (fun _ => 1000000)
              demo_params demo_office demo_store _ Hrole Hs) as [_ Hlast].
  destruct (Hlast "4711" "Pipe 15mm SKU 4711" eq_refl)
    as (d & Hf & _ & Hname & _ & Hactive).
  exists d. split; [exact Hf|]. split; [exact Hname | exact Hactive].
Defined.

(** X12 on the stand-in environment: the store after one registration is
    one the service can be in, and its user has a generated id. *)
Lemma X12_every_document_has_a_generated_id_witness :
  let st :=
    serve demo_secret demo_hs256 demo_pwd_hash demo_pwd_verify demo_soup_select
      (POST_auth_register "salt" demo_new_user) empty_store in
  reachable demo_secret demo_hs256 demo_pwd_hash demo_pwd_verify demo_soup_select st /\
  length (users st) = 1%nat /\
  generated_ids (users st) (next_id st) /\ all_have_id (users st).
Proof.
  cbv zeta.
  assert (Hreach : reachable demo_secret demo_hs256 demo_pwd_hash demo_pwd_verify
                     demo_soup_select
                     (serve demo_secret demo_hs256 demo_pwd_hash demo_pwd_verify
                        demo_soup_select (POST_auth_register "salt" demo_new_user)
                        empty_store))
    by (apply reachable_serve, reachable_empty).
  split; [exact Hreach|]. split; [vm_compute; reflexivity|].
  exact (X12_every_document_has_a_generated_id demo_secret demo_hs256
           demo_pwd_hash demo_pwd_verify demo_soup_select _ user Hreach).
Defined.

(** X13 on the stand-in environment: after two registrations with one
    email and two webhook calls for one order, emails, skus and order ids
    are still keys. *)
Lemma X13_keys_stay_unique_witness :
  let serve' :=
    serve demo_secret demo_hs256 demo_pwd_hash demo_pwd_verify demo_soup_select in
  let payload :=
    {| RouteCompletion.order_id := "WO-1";
       RouteCompletion.technician_email := None;
       RouteCompletion.status := "completed";
       RouteCompletion.completed_at := None |} in
  let st :=
    serve' (POST_optimoroute_webhook 4000000 payload)
      (serve' (POST_optimoroute_webhook 3000000 payload)
         (serve' (POST_auth_register "pepper" demo_new_user)
            (serve' (POST_auth_register "salt" demo_new_user) empty_store))) in
  reachable demo_secret demo_hs256 demo_pwd_hash demo_pwd_verify demo_soup_select st /\
  unique_by email_filter (users st) /\
  unique_by sku_filter (inventoryitems st) /\
  unique_by order_filter (workorders st).
Proof.
  cbv zeta.
  match goal with |- reachable _ _ _ _ _ ?s /\ _ =>
    assert (Hreach : reachable demo_secret demo_hs256 demo_pwd_hash
                       demo_pwd_verify demo_soup_select s)
      by (do 4 apply reachable_serve; apply reachable_empty)
  end.
  split; [exact Hreach|].
  exact (X13_keys_stay_unique demo_secret demo_hs256 demo_pwd_hash
           demo_pwd_verify demo_soup_select _ Hreach).
Defined.

(** X14 on the stand-in environment: Ines registers, logs in and asks who
    she is. *)
Lemma X14_register_login_me_round_trip_witness :
  generated_ids (users demo_store) (next_id demo_store) /\
  (next_id demo_store < 16 ^ 24)%N /\
  has (email_filter (User.email demo_new_user)) (users demo_store) = false /\
  demo_pwd_verify "wrench" (demo_pwd_hash "salt" "wrench") = true /\
  timegm 2000000 <= timegm 1000000 + 86400 /\
  exists pub tok st1 st2 st3,
    register demo_pwd_hash "salt" demo_new_user demo_store = (Return pub, st1) /\
    login demo_secret demo_hs256 demo_pwd_verify 1000000 "ines@example.com"
      "wrench" st1 = (Return tok, st2) /\
    route_me demo_secret demo_hs256 2000000 (Some (Token.access_token tok)) st2 =
      (Return pub, st3) /\
    UserPublic.email pub = "ines@example.com".
Proof.
  assert (Hgen : generated_ids (users demo_store) (next_id demo_store)).
  { repeat constructor.
    - exists 0%N. split; [reflexivity | reflexivity].
    - exists 1%N. split; [reflexivity | reflexivity]. }
  assert (Hnext : (next_id demo_store < 16 ^ 24)%N) by reflexivity.
  assert (Hh : has (email_filter (User.email demo_new_user)) (users demo_store)
               = false) by (vm_compute; reflexivity).
  assert (Hv : demo_pwd_verify "wrench" (demo_pwd_hash "salt" "wrench") = true)
    by (vm_compute; reflexivity).
  assert (Hle : timegm 2000000 <= timegm 1000000 + 86400)
    by (vm_compute; discriminate).
  split; [exact Hgen|]. split; [exact Hnext|]. split; [exact Hh|].
  split; [exact Hv|]. split; [exact Hle|].
  destruct (X14_register_login_me_round_trip demo_secret demo_hs256 demo_pwd_hash
              demo_pwd_verify "salt" demo_new_user 1000000 2000000 demo_store
              Hgen Hnext Hh Hv Hle)
    as (pub & tok & st1 & st2 & st3 & H1 & H2 & H3 & H4 & _).
  exists pub, tok, st1, st2, st3.
  split; [exact H1|]. split; [exact H2|]. split; [exact H3 | exact H4].
Defined.

(** X15 on the stand-in environment: a second registration with a stored
    email fails and leaves the users as they were. *)
Lemma X15_failed_requests_write_nothing_witness :
  let serve' :=
    serve demo_secret demo_hs256 demo_pwd_hash demo_pwd_verify demo_soup_select in
  let st := serve' (POST_auth_register "salt" demo_new_user) empty_store in
  let r := POST_auth_register "pepper" demo_new_user in
  reachable demo_secret demo_hs256 demo_pwd_hash demo_pwd_verify demo_soup_select st /\
  (next_id st < 16 ^ 24)%N /\
  answer_fails demo_secret demo_hs256 demo_pwd_hash demo_pwd_verify
    demo_soup_select r st = true /\
  users (serve' r st) = users st /\
  next_id (serve' r st) = next_id st.
Proof.
  cbv zeta.
  match goal with |- reachable _ _ _ _ _ ?s /\ _ =>
    assert (Hreach : reachable demo_secret demo_hs256 demo_pwd_hash
                       demo_pwd_verify demo_soup_select s)
      by (apply reachable_serve, reachable_empty);
    assert (Hnext : (next_id s < 16 ^ 24)%N) by (vm_compute; reflexivity);
    assert (Hfail : answer_fails demo_secret demo_hs256 demo_pwd_hash
                      demo_pwd_verify demo_soup_select
                      (POST_auth_register "pepper" demo_new_user) s = true)
      by (vm_compute; reflexivity)
  end.
  split; [exact Hreach|]. split; [exact Hnext|]. split; [exact Hfail|].
  destruct (X15_failed_requests_write_nothing demo_secret demo_hs256
              demo_pwd_hash demo_pwd_verify demo_soup_select _ _
              Hreach Hnext Hfail) as [Hdb Hn].
  split; [exact (Hdb user) | exact Hn].
Defined.

